(** * Image-generation edge proxy: a shallow embedding of the three Worker
    variants of the repository.

    - [src/index.js]            : the AI Horde two-phase Worker
                                  ([handleRequest], [submitRequest], [checkStatus]);
    - [src/unnamed/part_000]    : the SubNP streaming Worker with the
                                  multi-endpoint loop ([generateImage]);
    - [src/unnamed/part_001]    : the older SubNP CORS proxy ([handleRequest]).

    Modelling conventions.
    - JavaScript strings are [string]: a character is an [ascii], i.e. a
      UTF-16 code unit below 256.  The strings the code builds from bytes
      (the 8 KiB [String.fromCharCode] loop) are of this kind; the model
      covers the requests, prompts and bodies whose text is made of such code
      units (Latin-1 text), and the string operations are those of
      JavaScript on this domain.
    - A JSON value is [json]; numbers keep their lexeme.
    - The network is an oracle [net] from an outbound call to either a thrown
      error or a response; the operations run in a small state-and-exception
      monad whose state is the trace of outbound calls made so far.
    - Response headers other than [content-type] of a fetched image are
      constant in the source and not modelled. *)

From Stdlib Require Import String Ascii List ZArith NArith Lia Bool.
From Stdlib Require Import DecimalString.
From Stdlib Require DecimalPos.
Import ListNotations.
Open Scope string_scope.
#[local] Set Warnings "-register-all,-abstract-large-number".

(* ------------------------------------------------------------------ *)
(** ** JSON values and the JavaScript operations the code applies to them *)

Inductive json : Type :=
| JNull
| JBool (b : bool)
| JNum (lexeme : string)
| JStr (s : string)
| JArr (xs : list json)
| JObj (kvs : list (string * json)).

(** A JavaScript exception: [error.name] and [error.message]. *)
Record exn : Type := Exn { ex_name : string; ex_message : string }.

Definition TypeError (m : string) : exn := Exn "TypeError" m.
Definition SyntaxError (m : string) : exn := Exn "SyntaxError" m.
Definition RangeError (m : string) : exn := Exn "RangeError" m.

(** Does a numeric lexeme denote a non-zero number?  Only the mantissa
    (before an exponent) decides. *)
Fixpoint mantissa_nonzero (l : list ascii) : bool :=
  match l with
  | [] => false
  | c :: l' =>
      if orb (Ascii.eqb c "e") (Ascii.eqb c "E") then false
      else if andb (Ascii.leb "1" c) (Ascii.leb c "9") then true
      else mantissa_nonzero l'
  end.

(** JavaScript truthiness of a value; [None] is [undefined]. *)
Definition truthy (v : option json) : bool :=
  match v with
  | None | Some JNull => false
  | Some (JBool b) => b
  | Some (JNum n) => mantissa_nonzero (list_ascii_of_string n)
  | Some (JStr s) => negb (String.eqb s EmptyString)
  | Some (JArr _) | Some (JObj _) => true
  end.

Definition str_truthy (s : string) : bool := negb (String.eqb s EmptyString).

(** Own-property lookup; [JSON.parse] keeps the last of duplicated keys. *)
Fixpoint assoc_last (k : string) (kvs : list (string * json)) : option json :=
  match kvs with
  | [] => None
  | (k', v) :: kvs' =>
      match assoc_last k kvs' with
      | Some w => Some w
      | None => if String.eqb k k' then Some v else None
      end
  end.

(** [v.k]: reading a property of [null] throws a [TypeError]; primitives,
    arrays and objects without the key give [undefined].  Only the keys the
    code reads are used, none of which is an array index or [length]. *)
Definition get_prop (v : json) (k : string) : sum exn (option json) :=
  match v with
  | JNull => inl (TypeError ("Cannot read properties of null (reading '" ++ k ++ "')"))
  | JObj kvs => inr (assoc_last k kvs)
  | _ => inr None
  end.

(** [a || b] on values. *)
Definition js_or (a : option json) (b : json) : json :=
  if truthy a then match a with Some v => v | None => b end else b.

(** Decimal rendering of a number, as a template literal does. *)
Definition Z_to_string (z : Z) : string :=
  match z with
  | Z0 => "0"
  | Zpos p => NilZero.string_of_uint (Pos.to_uint p)
  | Zneg p => "-" ++ NilZero.string_of_uint (Pos.to_uint p)
  end.

(** [String.prototype.trim]: it strips the WhiteSpace and LineTerminator
    code units of ECMAScript.  Below 256 these are TAB, LF, VT, FF, CR (9-13),
    SPACE (32) and NO-BREAK SPACE (160); the others (U+1680, U+2000-U+200A,
    U+2028, U+2029, U+202F, U+205F, U+3000, U+FEFF) lie outside the model's
    code units. *)
Definition js_ws (c : ascii) : bool :=
  let n := N_of_ascii c in
  orb (orb (N.eqb n 32) (N.eqb n 160)) (andb (N.leb 9 n) (N.leb n 13)).

Fixpoint trim_start (l : list ascii) : list ascii :=
  match l with
  | [] => []
  | c :: l' => if js_ws c then trim_start l' else l
  end.

Definition js_trim (s : string) : string :=
  string_of_list_ascii
    (rev (trim_start (rev (trim_start (list_ascii_of_string s))))).


(** Canonical array-index keys (["0"], ["1"], ... without leading zeros). *)
Fixpoint digits_value (l : list ascii) (acc : nat) : option nat :=
  match l with
  | [] => Some acc
  | c :: l' =>
      if andb (Ascii.leb "0" c) (Ascii.leb c "9")
      then digits_value l' (acc * 10 + (nat_of_ascii c - 48))
      else None
  end.

Definition array_index (k : string) : option nat :=
  match list_ascii_of_string k with
  | [] => None
  | ["0"%char] => Some 0
  | "0"%char :: _ => None
  | l => digits_value l 0
  end.

(** [v[k]] on a possibly [undefined] value, with the [length] and index
    properties of arrays and strings. *)
Definition get_member (v : option json) (k : string) : sum exn (option json) :=
  match v with
  | None => inl (TypeError ("Cannot read properties of undefined (reading '" ++ k ++ "')"))
  | Some (JArr xs) =>
      if String.eqb k "length" then inr (Some (JNum (Z_to_string (Z.of_nat (List.length xs)))))
      else match array_index k with Some n => inr (nth_error xs n) | None => inr None end
  | Some (JStr s) =>
      if String.eqb k "length" then inr (Some (JNum (Z_to_string (Z.of_nat (String.length s)))))
      else match array_index k with
           | Some n => inr (option_map (fun c => JStr (String c EmptyString)) (String.get n s))
           | None => inr None
           end
  | Some j => get_prop j k
  end.

(** [x > 0] after [ToNumber]: decimal numerals (with [Infinity]) are
    recognised in strings; a string that is no numeral is [NaN]. *)
Fixpoint all_digits (l : list ascii) : bool :=
  match l with
  | [] => true
  | c :: l' => andb (andb (Ascii.leb "0" c) (Ascii.leb c "9")) (all_digits l')
  end.

Definition split_at_char (c : ascii) (l : list ascii) : list ascii * option (list ascii) :=
  (fix go (l : list ascii) :=
     match l with
     | [] => ([], None)
     | d :: l' => if Ascii.eqb c d then ([], Some l')
                  else let (a, b) := go l' in (d :: a, b)
     end) l.

Definition is_nil {A} (l : list A) : bool := match l with [] => true | _ => false end.

(** Unsigned decimal literal: [digits (. digits)? | . digits], optional exponent. *)
Definition unsigned_decimal (l : list ascii) : bool :=
  let (m, e) := match split_at_char "e" l with
                 | (m, Some e) => (m, Some e)
                 | (m, None) => split_at_char "E" m
                 end in
  let exp_ok := match e with
                 | None => true
                 | Some ("+"%char :: ds) | Some ("-"%char :: ds) => andb (negb (is_nil ds)) (all_digits ds)
                 | Some ds => andb (negb (is_nil ds)) (all_digits ds)
                 end in
  let mant_ok := match split_at_char "." m with
                 | (ip, None) => andb (negb (is_nil ip)) (all_digits ip)
                 | (ip, Some fp) => andb (negb (andb (is_nil ip) (is_nil fp)))
                                         (andb (all_digits ip) (all_digits fp))
                 end in
  andb exp_ok mant_ok.

Definition string_gt0 (s : string) : bool :=
  match list_ascii_of_string (js_trim s) with
  | "-"%char :: _ => false
  | "+"%char :: l | l =>
      if String.eqb (string_of_list_ascii l) "Infinity" then true
      else andb (unsigned_decimal l) (mantissa_nonzero l)
  end.

Fixpoint js_gt0_json (j : json) : bool :=
  match j with
  | JNull => false
  | JBool b => b
  | JNum n => match list_ascii_of_string n with
              | "-"%char :: _ => false
              | l => mantissa_nonzero l
              end
  | JStr s => string_gt0 s
  | JArr [x] => match x with JBool _ | JObj _ => false | _ => js_gt0_json x end
  | JArr _ => false
  | JObj _ => false
  end.

Definition js_gt0 (v : option json) : bool :=
  match v with None => false | Some j => js_gt0_json j end.

(** [JSON.stringify] (numbers are written as their lexeme). *)
Definition hex_digit (n : N) : ascii :=
  match String.get (N.to_nat n) "0123456789abcdef" with Some c => c | None => "0"%char end.

Definition quote_char : ascii := ascii_of_nat 34.
Definition backslash : ascii := ascii_of_nat 92.
Definition char_str (c : ascii) : string := String c EmptyString.

Fixpoint quote_chars (l : list ascii) : string :=
  match l with
  | [] => EmptyString
  | c :: l' =>
      let n := N_of_ascii c in
      let esc :=
        if Ascii.eqb c quote_char then String backslash (char_str quote_char)
        else if Ascii.eqb c backslash then String backslash (char_str backslash)
        else if N.eqb n 8 then String backslash "b"
        else if N.eqb n 9 then String backslash "t"
        else if N.eqb n 10 then String backslash "n"
        else if N.eqb n 12 then String backslash "f"
        else if N.eqb n 13 then String backslash "r"
        else if N.ltb n 32 then String backslash (String "u"%char (String "0"%char (String "0"%char
                                   (String (hex_digit (n / 16)) (char_str (hex_digit (n mod 16)))))))
        else char_str c in
      esc ++ quote_chars l'
  end.

Definition quote (s : string) : string :=
  char_str quote_char ++ quote_chars (list_ascii_of_string s) ++ char_str quote_char.

Fixpoint json_stringify (j : json) : string :=
  match j with
  | JNull => "null"
  | JBool true => "true"
  | JBool false => "false"
  | JNum n => n
  | JStr s => quote s
  | JArr xs =>
      "[" ++ String.concat "," (map json_stringify xs) ++ "]"
  | JObj kvs =>
      "{" ++ String.concat ","
               (map (fun kv => quote (fst kv) ++ ":" ++ json_stringify (snd kv)) kvs) ++ "}"
  end.

(* ------------------------------------------------------------------ *)
(** ** Binary Encoder ([checkStatus], src/index.js lines 286-297) *)

Module Base64.

(** The base64 alphabet, as [btoa] uses it. *)
Definition alphabet : string :=
  "ABCDEFGHIJKLMNOPQRSTUVWXYZabcdefghijklmnopqrstuvwxyz0123456789+/".

Definition sextet_char (n : N) : ascii :=
  match String.get (N.to_nat n) alphabet with Some c => c | None => "="%char end.

Definition byte (a : ascii) : N := N_of_ascii a.

(** [btoa]: three bytes give four characters; a final one or two bytes are
    padded with [=]. *)
Fixpoint btoa (s : list ascii) : string :=
  match s with
  | a :: b :: c :: rest =>
      let x := byte a in let y := byte b in let z := byte c in
      String (sextet_char (x / 4))
        (String (sextet_char ((x mod 4) * 16 + y / 16))
          (String (sextet_char ((y mod 16) * 4 + z / 64))
            (String (sextet_char (z mod 64)) (btoa rest))))
  | [a; b] =>
      let x := byte a in let y := byte b in
      String (sextet_char (x / 4))
        (String (sextet_char ((x mod 4) * 16 + y / 16))
          (String (sextet_char ((y mod 16) * 4)) "="))
  | [a] =>
      let x := byte a in
      String (sextet_char (x / 4))
        (String (sextet_char ((x mod 4) * 16)) "==")
  | [] => EmptyString
  end.

(** Standard base64 decoding ([atob] on canonical, padded input), the inverse
    the round-trip property is stated against. *)
Fixpoint index_of (c : ascii) (s : string) (n : N) : option N :=
  match s with
  | EmptyString => None
  | String d s' => if Ascii.eqb c d then Some n else index_of c s' (N.succ n)
  end.

Definition char_sextet (c : ascii) : option N := index_of c alphabet 0.

Fixpoint atob (s : string) : option (list ascii) :=
  match s with
  | EmptyString => Some []
  | String c0 (String c1 (String c2 (String c3 rest))) =>
      match char_sextet c0, char_sextet c1 with
      | Some s0, Some s1 =>
          let a := ascii_of_N (s0 * 4 + s1 / 16) in
          if andb (Ascii.eqb c2 "=") (Ascii.eqb c3 "=") then
            match rest with EmptyString => Some [a] | _ => None end
          else
            match char_sextet c2 with
            | None => None
            | Some s2 =>
                let b := ascii_of_N ((s1 mod 16) * 16 + s2 / 4) in
                if Ascii.eqb c3 "=" then
                  match rest with EmptyString => Some [a; b] | _ => None end
                else
                  match char_sextet c3 with
                  | None => None
                  | Some s3 =>
                      let c := ascii_of_N ((s2 mod 4) * 64 + s3) in
                      match atob rest with
                      | Some r => Some (a :: b :: c :: r)
                      | None => None
                      end
                  end
            end
      | _, _ => None
      end
  | _ => None
  end.

End Base64.

(** [Uint8Array.slice(i, i + n)]: clamped to the array. *)
Definition slice (l : list ascii) (i j : nat) : list ascii := firstn (j - i) (skipn i l).

(** [Array.from(chunk)] and [String.fromCharCode.apply(null, codes)]. *)
Definition array_from (l : list ascii) : list N := map N_of_ascii l.
Definition fromCharCode (codes : list N) : list ascii := map ascii_of_N codes.

Definition chunkSize : nat := 8192.

(** The loop [for (let i = 0; i < bytes.length; i += chunkSize)]; [fuel]
    bounds the iterations (one more than the length suffices). *)
Fixpoint chunk_loop (fuel : nat) (bytes : list ascii) (i : nat) (binary : list ascii)
  : list ascii :=
  match fuel with
  | O => binary
  | S fuel' =>
      if Nat.ltb i (length bytes) then
        let chunk := slice bytes i (i + chunkSize) in
        let chunkArray := array_from chunk in
        chunk_loop fuel' bytes (i + chunkSize) (binary ++ fromCharCode chunkArray)
      else binary
  end.

(** [const base64 = btoa(binary)] for the bytes of a fetched image. *)
Definition encode_bytes (bytes : list ascii) : string :=
  Base64.btoa (chunk_loop (S (length bytes)) bytes 0 []).

(** The same text built in one [String.fromCharCode] call. *)
Definition encode_whole (bytes : list ascii) : string :=
  Base64.btoa (fromCharCode (array_from bytes)).

(* ------------------------------------------------------------------ *)
(** ** [JSON.parse] on the byte model

    A recursive-descent reading of the JSON grammar: white space, literals,
    numbers (kept as their lexeme), strings with escapes, arrays and objects.
    A [\u] escape is read when it denotes a byte (code below 256); others fall
    outside the byte model and are refused. *)

Module JsonParse.

Definition is_ws (c : ascii) : bool :=
  orb (orb (Ascii.eqb c " ") (Ascii.eqb c (ascii_of_nat 9)))
      (orb (Ascii.eqb c (ascii_of_nat 10)) (Ascii.eqb c (ascii_of_nat 13))).

Fixpoint skip_ws (l : list ascii) : list ascii :=
  match l with
  | c :: l' => if is_ws c then skip_ws l' else l
  | [] => []
  end.

Definition is_digit (c : ascii) : bool := andb (Ascii.leb "0" c) (Ascii.leb c "9").

Fixpoint digits (l : list ascii) : list ascii * list ascii :=
  match l with
  | c :: l' => if is_digit c then let (ds, r) := digits l' in (c :: ds, r) else ([], l)
  | [] => ([], [])
  end.

Definition hex_val (c : ascii) : option N :=
  let n := N_of_ascii c in
  if is_digit c then Some (n - 48)%N
  else if andb (Ascii.leb "a" c) (Ascii.leb c "f") then Some (n - 87)%N
  else if andb (Ascii.leb "A" c) (Ascii.leb c "F") then Some (n - 55)%N
  else None.

(** Number: [-? (0 | [1-9][0-9]* ) (. [0-9]+)? ([eE] [+-]? [0-9]+)?]. *)
Definition parse_number (l : list ascii) : option (list ascii * list ascii) :=
  let (sign, l1) := match l with "-"%char :: r => (["-"%char], r) | _ => ([], l) end in
  let int_part :=
    match l1 with
    | "0"%char :: r => Some (["0"%char], r)
    | _ => match digits l1 with ([], _) => None | (ds, r) => Some (ds, r) end
    end in
  match int_part with
  | None => None
  | Some (ip, l2) =>
      let frac :=
        match l2 with
        | "."%char :: r =>
            match digits r with ([], _) => None | (ds, r') => Some ("."%char :: ds, r') end
        | _ => Some ([], l2)
        end in
      match frac with
      | None => None
      | Some (fp, l3) =>
          let expo :=
            match l3 with
            | e :: r =>
                if orb (Ascii.eqb e "e") (Ascii.eqb e "E") then
                  let (sg, r1) := match r with
                                  | s :: r1 => if orb (Ascii.eqb s "+") (Ascii.eqb s "-")
                                               then ([s], r1) else ([], r) 
                                  | [] => ([], r) end in
                  match digits r1 with
                  | ([], _) => None
                  | (ds, r2) => Some (e :: (sg ++ ds)%list, r2)
                  end
                else Some ([], l3)
            | [] => Some ([], l3)
            end in
          match expo with
          | None => None
          | Some (ep, l4) => Some ((sign ++ ip ++ fp ++ ep)%list, l4)
          end
      end
  end.

(** String body after the opening quote. *)
Fixpoint parse_chars (l : list ascii) : option (list ascii * list ascii) :=
  match l with
  | [] => None
  | c :: r =>
      if Ascii.eqb c quote_char then Some ([], r)
      else if N.ltb (N_of_ascii c) 32 then None
      else if Ascii.eqb c backslash then
        match r with
        | e :: r' =>
            let simple :=
              if Ascii.eqb e quote_char then Some e
              else if Ascii.eqb e backslash then Some e
              else if Ascii.eqb e "/" then Some e
              else if Ascii.eqb e "b" then Some (ascii_of_nat 8)
              else if Ascii.eqb e "f" then Some (ascii_of_nat 12)
              else if Ascii.eqb e "n" then Some (ascii_of_nat 10)
              else if Ascii.eqb e "r" then Some (ascii_of_nat 13)
              else if Ascii.eqb e "t" then Some (ascii_of_nat 9)
              else None in
            match simple with
            | Some d =>
                match parse_chars r' with Some (s, r'') => Some (d :: s, r'') | None => None end
            | None =>
                if Ascii.eqb e "u" then
                  match r' with
                  | h1 :: h2 :: h3 :: h4 :: r'' =>
                      match hex_val h1, hex_val h2, hex_val h3, hex_val h4 with
                      | Some a, Some b, Some c', Some d =>
                          let code := (((a * 16 + b) * 16 + c') * 16 + d)%N in
                          if N.ltb code 256 then
                            match parse_chars r'' with
                            | Some (s, r3) => Some (ascii_of_N code :: s, r3)
                            | None => None
                            end
                          else None
                      | _, _, _, _ => None
                      end
                  | _ => None
                  end
                else None
            end
        | [] => None
        end
      else match parse_chars r with Some (s, r') => Some (c :: s, r') | None => None end
  end.

Fixpoint expect (w : list ascii) (l : list ascii) : option (list ascii) :=
  match w, l with
  | [], _ => Some l
  | c :: w', d :: l' => if Ascii.eqb c d then expect w' l' else None
  | _ :: _, [] => None
  end.

(** [fuel] bounds the nesting; the input length suffices. *)
Fixpoint parse_value (fuel : nat) (l : list ascii) : option (json * list ascii) :=
  match fuel with
  | O => None
  | S fuel' =>
      match skip_ws l with
      | [] => None
      | c :: r =>
          if Ascii.eqb c "n" then
            match expect (list_ascii_of_string "ull") r with Some r' => Some (JNull, r') | None => None end
          else if Ascii.eqb c "t" then
            match expect (list_ascii_of_string "rue") r with Some r' => Some (JBool true, r') | None => None end
          else if Ascii.eqb c "f" then
            match expect (list_ascii_of_string "alse") r with Some r' => Some (JBool false, r') | None => None end
          else if Ascii.eqb c quote_char then
            match parse_chars r with
            | Some (s, r') => Some (JStr (string_of_list_ascii s), r')
            | None => None
            end
          else if orb (Ascii.eqb c "-") (is_digit c) then
            match parse_number (c :: r) with
            | Some (lx, r') => Some (JNum (string_of_list_ascii lx), r')
            | None => None
            end
          else if Ascii.eqb c "[" then
            match skip_ws r with
            | "]"%char :: r' => Some (JArr [], r')
            | _ => match parse_elems fuel' r with
                   | Some (xs, r') => Some (JArr xs, r')
                   | None => None
                   end
            end
          else if Ascii.eqb c "{" then
            match skip_ws r with
            | "}"%char :: r' => Some (JObj [], r')
            | _ => match parse_members fuel' r with
                   | Some (kvs, r') => Some (JObj kvs, r')
                   | None => None
                   end
            end
          else None
      end
  end
(** Elements of a non-empty array, up to and including the closing bracket. *)
with parse_elems (fuel : nat) (l : list ascii) : option (list json * list ascii) :=
  match fuel with
  | O => None
  | S fuel' =>
      match parse_value fuel' l with
      | None => None
      | Some (v, r) =>
          match skip_ws r with
          | ","%char :: r' =>
              match parse_elems fuel' r' with
              | Some (vs, r'') => Some (v :: vs, r'')
              | None => None
              end
          | "]"%char :: r' => Some ([v], r')
          | _ => None
          end
      end
  end
(** Members of a non-empty object, up to and including the closing brace. *)
with parse_members (fuel : nat) (l : list ascii) : option (list (string * json) * list ascii) :=
  match fuel with
  | O => None
  | S fuel' =>
      match skip_ws l with
      | q :: r =>
          if negb (Ascii.eqb q quote_char) then None else
          match parse_chars r with
          | None => None
          | Some (k, r1) =>
              match skip_ws r1 with
              | ":"%char :: r2 =>
                  match parse_value fuel' r2 with
                  | None => None
                  | Some (v, r3) =>
                      match skip_ws r3 with
                      | ","%char :: r4 =>
                          match parse_members fuel' r4 with
                          | Some (kvs, r5) => Some ((string_of_list_ascii k, v) :: kvs, r5)
                          | None => None
                          end
                      | "}"%char :: r4 => Some ([(string_of_list_ascii k, v)], r4)
                      | _ => None
                      end
                  end
              | _ => None
              end
          end
      | _ => None
      end
  end.

End JsonParse.

(** [JSON.parse(text)]: [None] when it throws a [SyntaxError]. *)
Definition json_parse (s : string) : option json :=
  let l := list_ascii_of_string s in
  match JsonParse.parse_value (S (2 * length l)) l with
  | Some (v, rest) => match JsonParse.skip_ws rest with [] => Some v | _ => None end
  | None => None
  end.

(* ------------------------------------------------------------------ *)
(** ** Line splitting: [buffer.split('\n')] and [lines.pop() || '']

    [split_lines s] returns the newline-terminated lines of [s] and the
    trailing fragment after the last newline; [String.prototype.split] with
    a one-character separator is their list followed by the fragment. *)

Definition newline : ascii := ascii_of_nat 10.

Fixpoint split_lines (s : string) : list string * string :=
  match s with
  | EmptyString => ([], EmptyString)
  | String c s' =>
      let (ls, r) := split_lines s' in
      if Ascii.eqb c newline then (EmptyString :: ls, r)
      else match ls with
           | [] => ([], String c r)
           | l :: ls' => (String c l :: ls', r)
           end
  end.

Definition js_split_nl (s : string) : list string :=
  let (ls, r) := split_lines s in (ls ++ [r])%list.

(** The text of a sequence of chunks. *)
Definition concat_text (chunks : list string) : string :=
  fold_right String.append EmptyString chunks.

(** [const lines = buffer.split('\n'); buffer = lines.pop() || '']:
    the lines left in the array and the new buffer. *)
Definition pop_fragment (lines : list string) : list string * string :=
  match rev lines with
  | [] => ([], EmptyString)
  | last :: init_rev => (rev init_rev, if str_truthy last then last else EmptyString)
  end.

(** [line.startsWith('data: ')] and [line.slice(6)]. *)
Definition data_prefix : string := "data: ".
Definition js_slice_from (n : nat) (s : string) : string := substring n (String.length s - n) s.

Definition status_is (status : option json) (name : string) : bool :=
  match status with Some (JStr s) => String.eqb s name | _ => false end.

(** The state of an SSE read loop of src/unnamed/part_000 (lines 151-154). *)
Record sse_state : Type := SseState {
  imageUrl : option json;          (* let imageUrl = null *)
  errorMessage : option json;      (* let errorMessage = null *)
  status : string                  (* let status = 'processing' *)
}.

Definition sse_init : sse_state := SseState None None "processing".

(* ------------------------------------------------------------------ *)
(** ** Requests, responses and the network *)

(** A backend response: status, the [content-type] header, the body as its
    decoded text chunks ([None] for a null body) and, when reading the body
    fails, the error the reader rejects with after the delivered chunks. *)
Record fetch_response : Type := FetchResponse {
  r_status : Z;
  r_content_type : option string;
  r_body : option (list string);
  r_stream_error : option exn
}.

(** [response.ok]. *)
Definition ok (r : fetch_response) : bool := andb (Z.leb 200 r.(r_status)) (Z.leb r.(r_status) 299).

(** An outbound [fetch] call: URL, method and the JSON body it serialises. *)
Record call : Type := Call { c_url : string; c_method : string; c_body : option json }.

(** The inbound request: method, [url.searchParams.get('requestId')] and the
    body text. *)
Record request : Type := Request {
  method : string;
  requestId_param : option string;
  body_text : string
}.

Inductive out_body : Type := BNull | BText (s : string) | BJson (j : json).

(** The [Response] returned to the caller. *)
Record http_response : Type := HttpResponse { h_status : Z; h_body : out_body }.

(** [new Response(JSON.stringify(j), { status, headers })]. *)
Definition json_response (st : Z) (j : json) : http_response := HttpResponse st (BJson j).

(** [new Response(JSON.stringify(j), { headers })]: no [status] option, so the
    [Response] default 200. *)
Definition json_response_default (j : json) : http_response := HttpResponse 200 (BJson j).

(** State-and-exception monad: the state is the trace of outbound calls. *)
Definition M (A : Type) : Type := list call -> list call * sum exn A.

Definition ret {A} (a : A) : M A := fun tr => (tr, inr a).
Definition throw {A} (e : exn) : M A := fun tr => (tr, inl e).
Definition bind {A B} (m : M A) (k : A -> M B) : M B :=
  fun tr => match m tr with
            | (tr', inl e) => (tr', inl e)
            | (tr', inr a) => k a tr'
            end.
Definition try_catch {A} (m : M A) (h : exn -> M A) : M A :=
  fun tr => match m tr with
            | (tr', inl e) => h e tr'
            | (tr', inr a) => (tr', inr a)
            end.
Definition lift {A} (x : sum exn A) : M A :=
  match x with inl e => throw e | inr a => ret a end.

Notation "x <- m ;; k" := (bind m (fun x => k)) (at level 61, m at next level, right associativity).


(** The engine's [JSON.parse]: the value of a text, [None] when it throws a
    [SyntaxError], and the message of that [SyntaxError], which the engine
    builds from the text. *)
Record JsonParser : Type := MkJsonParser {
  parse :> string -> option json;
  syntax_error_message : string -> string
}.

Section Program.

Variable JSON_parse : JsonParser.

(** One complete line of the stream, src/unnamed/part_000 lines 166-184.
    A parse failure, and a [TypeError] from reading a property of a parsed
    [null], are caught and the line is skipped. *)
Definition process_line (st : sse_state) (line : string) : sse_state :=
  if String.prefix data_prefix line then
    match JSON_parse (js_slice_from 6 line) with
    | None => st
    | Some data =>
        match get_prop data "status" with
        | inl _ => st
        | inr dstatus =>
            match (if status_is dstatus "complete" then get_prop data "imageUrl" else inr None) with
            | inl _ => st
            | inr url =>
                if andb (status_is dstatus "complete") (truthy url) then
                  SseState url st.(errorMessage) "completed"
                else if status_is dstatus "error" then
                  match get_prop data "message" with
                  | inl _ => st
                  | inr msg =>
                      SseState st.(imageUrl)
                        (Some (js_or msg (JStr "Unknown error from SubNP"))) "error"
                  end
                else if status_is dstatus "processing" then
                  SseState st.(imageUrl) st.(errorMessage) "processing"
                else st
            end
        end
    end
  else st.

(** The same step in the CORS proxy, src/unnamed/part_001 lines 79-90: no
    [status] variable and a different default message. *)
Definition process_line_proxy (st : option json * option json) (line : string)
  : option json * option json :=
  let (url0, err0) := st in
  if String.prefix data_prefix line then
    match JSON_parse (js_slice_from 6 line) with
    | None => st
    | Some data =>
        match get_prop data "status" with
        | inl _ => st
        | inr dstatus =>
            match (if status_is dstatus "complete" then get_prop data "imageUrl" else inr None) with
            | inl _ => st
            | inr url =>
                if andb (status_is dstatus "complete") (truthy url) then (url, err0)
                else if status_is dstatus "error" then
                  match get_prop data "message" with
                  | inl _ => st
                  | inr msg => (url0, Some (js_or msg (JStr "Unknown error")))
                  end
                else st
            end
        end
    end
  else st.

(** The read loop [while (true) { const { done, value } = await reader.read(); ... }]
    over the decoded text chunks of a body that ends normally: returns the
    final buffer and state. *)
Fixpoint read_loop {S : Type} (step : S -> string -> S) (chunks : list string)
  (buffer : string) (st : S) : string * S :=
  match chunks with
  | [] => (buffer, st)
  | value :: rest =>
      let buffer1 := buffer ++ value in
      let (lines, buffer2) := pop_fragment (js_split_nl buffer1) in
      read_loop step rest buffer2 (fold_left step lines st)
  end.

(** What [generateImage] reports after the loop (lines 189-227), before
    wrapping it in a response. *)
Inductive sse_outcome : Type :=
| SseError (message : json)
| SseNoImage
| SseImage (url : json).

Definition sse_result (st : sse_state) : sse_outcome :=
  if truthy st.(errorMessage) then
    SseError (match st.(errorMessage) with Some m => m | None => JNull end)
  else if negb (truthy st.(imageUrl)) then SseNoImage
  else SseImage (match st.(imageUrl) with Some u => u | None => JNull end).

Definition decode_stream (chunks : list string) : sse_outcome :=
  sse_result (snd (read_loop process_line chunks EmptyString sse_init)).

(** What the CORS proxy reports after its loop (src/unnamed/part_001 lines
    94-120), from its state [(imageUrl, errorMessage)]. *)
Definition proxy_result (st : option json * option json) : sse_outcome :=
  let (imageUrl, errorMessage) := st in
  if truthy errorMessage then
    SseError (match errorMessage with Some m => m | None => JNull end)
  else if negb (truthy imageUrl) then SseNoImage
  else SseImage (match imageUrl with Some u => u | None => JNull end).

Definition decode_stream_proxy (chunks : list string) : sse_outcome :=
  proxy_result (snd (read_loop process_line_proxy chunks EmptyString (None, None))).

(** The network: what [fetch] does for a call. *)
Variable net : call -> sum exn fetch_response.

(** [await fetch(url, init)]: the call is recorded, then resolves or rejects. *)
Definition fetch (c : call) : M fetch_response :=
  fun tr => (app tr [c], net c).

(** [await response.text()] and [await response.json()]. *)
Definition body_chunks (r : fetch_response) : list string :=
  match r.(r_body) with Some cs => cs | None => [] end.

Definition resp_text (r : fetch_response) : M string :=
  match r.(r_stream_error) with
  | Some e => throw e
  | None => ret (concat_text (body_chunks r))
  end.

Definition resp_json (r : fetch_response) : M json :=
  t <- resp_text r ;;
  match JSON_parse t with
  | Some j => ret j
  | None => throw (SyntaxError (syntax_error_message JSON_parse t))
  end.

(** [await request.json()]. *)
Definition request_json (req : request) : M json :=
  match JSON_parse req.(body_text) with
  | Some j => ret j
  | None => throw (SyntaxError (syntax_error_message JSON_parse req.(body_text)))
  end.

(** [prompt.trim()]: only strings have a [trim] method. *)
Definition trim_value (v : option json) : sum exn string :=
  match v with
  | Some (JStr s) => inr (js_trim s)
  | _ => inl (TypeError "prompt.trim is not a function")
  end.

(** [error.message || fallback] and [error.name || 'Error']. *)
Definition msg_or (s fallback : string) : string := if str_truthy s then s else fallback.

(* ------------------------------------------------------------------ *)
(** ** src/unnamed/part_000: [generateImage] *)

Definition apiUrls : list string :=
  [ "https://t2i.mcpcore.xyz/api/free/generate";
    "https://subnp.com/api/free/generate" ].

(** The request body [JSON.stringify({ prompt: prompt.trim(), model })]. *)
Definition subnp_call (apiUrl : string) (p : string) (model : json) : call :=
  Call apiUrl "POST" (Some (JObj [("prompt", JStr p); ("model", model)])).

(** The endpoint loop, lines 98-124: returns [apiResponse] and [lastError]. *)
Fixpoint endpoint_loop (prompt : option json) (model : json) (urls : list string)
  (apiResponse : option fetch_response) (lastError : option string)
  : M (option fetch_response * option string) :=
  match urls with
  | [] => ret (apiResponse, lastError)
  | apiUrl :: rest =>
      r <- try_catch
             (p <- lift (trim_value prompt) ;;
              resp <- fetch (subnp_call apiUrl p model) ;;
              ret (inr resp))
             (fun fetchError => ret (inl fetchError)) ;;
      match r with
      | inl fetchError =>
          endpoint_loop prompt model rest apiResponse (Some fetchError.(ex_message))
      | inr resp =>
          if ok resp then ret (Some resp, lastError)
          else if negb (Z.eqb resp.(r_status) 404) then ret (Some resp, lastError)
          else endpoint_loop prompt model rest (Some resp) (Some ("404 from " ++ apiUrl))
      end
  end.

(** [apiResponse?.status || 'Connection failed']. *)
Definition failure_status (apiResponse : option fetch_response) : json :=
  match apiResponse with
  | Some r => if Z.eqb r.(r_status) 0 then JStr "Connection failed" else JNum (Z_to_string r.(r_status))
  | None => JStr "Connection failed"
  end.

Definition json_display (j : json) : string :=
  match j with JStr s => s | JNum n => n | _ => EmptyString end.

(** Lines 126-146. *)
Definition endpoint_failure (apiResponse : option fetch_response) (lastError : option string)
  : M http_response :=
  errorText <- match apiResponse with
               | Some r => resp_text r
               | None => ret (match lastError with
                              | Some e => msg_or e "All endpoints failed"
                              | None => "All endpoints failed"
                              end)
               end ;;
  let st := failure_status apiResponse in
  ret (json_response 200 (JObj [
    ("error", JStr ("SubNP API error: " ++ json_display st));
    ("details", JStr errorText);
    ("debug", JObj [("status", st); ("errorText", JStr errorText);
                    ("triedEndpoints", JArr (map JStr apiUrls));
                    ("suggestion", JStr "SubNP may require an API key. Visit https://www.subnp.com/free-api to get one.")])])).

(** Lines 148-227: the SSE stream and the envelope built from it. *)
Definition stream_response (apiResponse : fetch_response) : M http_response :=
  match apiResponse.(r_body) with
  | None => throw (TypeError "Cannot read properties of null (reading 'getReader')")
  | Some chunks =>
      let st := snd (read_loop process_line chunks EmptyString sse_init) in
      match apiResponse.(r_stream_error) with
      | Some e => throw e
      | None =>
          match sse_result st with
          | SseError m => ret (json_response 200 (JObj [("error", m); ("status", JStr "error")]))
          | SseNoImage => ret (json_response 200 (JObj [("error", JStr "No image URL received from SubNP");
                                                         ("status", JStr "error")]))
          | SseImage u => ret (json_response_default (JObj [
                              ("imageUrl", u); ("provider", JStr "subnp");
                              ("status", JStr "completed"); ("version", JStr "2025-01-11-subnp")]))
          end
      end
  end.

(** The catch clause of [generateImage] and of [checkStatus]: [{ error:
    error.message || 'Unknown error occurred', type: error.name || 'Error',
    status: 'error' }]. *)
Definition unknown_error_response (error : exn) : http_response :=
  json_response 200 (JObj [("error", JStr (msg_or error.(ex_message) "Unknown error occurred"));
                           ("type", JStr (msg_or error.(ex_name) "Error"));
                           ("status", JStr "error")]).

Definition invalid_json_response (e : exn) : http_response :=
  json_response 200 (JObj [("error", JStr "Invalid JSON in request body");
                           ("details", JStr e.(ex_message))]).

Definition prompt_required : json := JObj [("error", JStr "Prompt is required")].

Definition generateImage (req : request) : M http_response :=
  try_catch
    (b <- try_catch (body <- request_json req ;; ret (inr body)) (fun e => ret (inl e)) ;;
     match b with
     | inl e => ret (invalid_json_response e)
     | inr body =>
         prompt <- lift (get_prop body "prompt") ;;
         model0 <- lift (get_prop body "model") ;;
         let model := match model0 with None => JStr "turbo" | Some m => m end in
         if negb (truthy prompt) then ret (json_response 200 prompt_required)
         else
           res <- endpoint_loop prompt model apiUrls None None ;;
           let (apiResponse, lastError) := res in
           match apiResponse with
           | Some r => if ok r then stream_response r else endpoint_failure apiResponse lastError
           | None => endpoint_failure apiResponse lastError
           end
     end)
    (fun error => ret (unknown_error_response error)).

(** The Worker's [handleRequest] and [fetch] handler, lines 11-53. *)
Definition method_not_allowed : http_response :=
  json_response 405 (JObj [("error", JStr "Method not allowed")]).

Definition preflight : http_response := HttpResponse 204 BNull.

Definition worker_error_response (error : exn) : http_response :=
  json_response 200 (JObj [("error", JStr ("Worker error: " ++ msg_or error.(ex_message) "Unknown error"));
                           ("type", JStr (msg_or error.(ex_name) "Error"))]).

Definition handleRequest_subnp (req : request) : M http_response :=
  if String.eqb req.(method) "OPTIONS" then ret preflight
  else if String.eqb req.(method) "POST" then generateImage req
  else ret method_not_allowed.

Definition fetch_subnp (req : request) : M http_response :=
  try_catch (handleRequest_subnp req) (fun error => ret (worker_error_response error)).

(* ------------------------------------------------------------------ *)
(** ** src/unnamed/part_001: the CORS proxy's [handleRequest] *)

Definition proxy_json (st : Z) (j : json) : http_response := json_response st j.

(** [new Response(body, { status })] with a non-null body: the constructor
    throws a [RangeError] for a status outside 200-599 and a [TypeError] for
    a null-body status (101, 204, 205, 304), with the messages of the Workers
    runtime. *)
Definition null_body_status (st : Z) : bool :=
  orb (orb (Z.eqb st 101) (Z.eqb st 204)) (orb (Z.eqb st 205) (Z.eqb st 304)).

Definition response_status_error (st : Z) : option exn :=
  if negb (andb (Z.leb 200 st) (Z.leb st 599)) then
    Some (RangeError "Responses may only be constructed with status codes in the range 200 to 599, inclusive.")
  else if null_body_status st then
    Some (TypeError "Response with null body status (101, 204, 205, or 304) cannot have a body.")
  else None.

(** Lines 64-120: the SSE stream of an ok answer and the response built from
    it. *)
Definition proxy_stream_response (apiResponse : fetch_response) : M http_response :=
  match apiResponse.(r_body) with
  | None => throw (TypeError "Cannot read properties of null (reading 'getReader')")
  | Some chunks =>
      let st := snd (read_loop process_line_proxy chunks EmptyString (None, None)) in
      match apiResponse.(r_stream_error) with
      | Some e => throw e
      | None =>
          match proxy_result st with
          | SseError m => ret (proxy_json 500 (JObj [("error", m)]))
          | SseNoImage => ret (proxy_json 500 (JObj [("error", JStr "No image URL received")]))
          | SseImage u => ret (json_response_default (JObj [("imageUrl", u)]))
          end
      end
  end.

(** Lines 28-130: the [try] block of a POST and its [catch]. *)
Definition proxy_post (req : request) : M http_response :=
    try_catch
      (body <- request_json req ;;
       prompt <- lift (get_prop body "prompt") ;;
       model0 <- lift (get_prop body "model") ;;
       let model := match model0 with None => JStr "turbo" | Some m => m end in
       if negb (truthy prompt) then ret (proxy_json 400 prompt_required)
       else
         (* [JSON.stringify({ prompt, model })]: the prompt as received *)
         apiResponse <- fetch (Call "https://t2i.mcpcore.xyz/api/free/generate" "POST"
                                 (Some (JObj [("prompt", match prompt with Some p => p | None => JNull end);
                                              ("model", model)]))) ;;
         if negb (ok apiResponse) then
           errorText <- resp_text apiResponse ;;
           (* [new Response(..., { status: apiResponse.status })] *)
           match response_status_error apiResponse.(r_status) with
           | Some e => throw e
           | None =>
               ret (proxy_json apiResponse.(r_status)
                      (JObj [("error", JStr ("API error: " ++ Z_to_string apiResponse.(r_status)));
                             ("details", JStr errorText)]))
           end
         else proxy_stream_response apiResponse)
      (fun error => ret (proxy_json 500 (JObj [("error", JStr error.(ex_message))]))).

(** Lines 9-26. *)
Definition handleRequest_proxy (req : request) : M http_response :=
  if String.eqb req.(method) "OPTIONS" then ret preflight
  else if negb (String.eqb req.(method) "POST") then ret (HttpResponse 405 (BText "Method not allowed"))
  else proxy_post req.

(* ------------------------------------------------------------------ *)
(** ** src/index.js: the AI Horde Worker *)

Definition horde_models : list string :=
  [ "flux1-1-pro-ultra"; "flux2-pro"; "flux1-1-pro"; "flux.1-pro"; "flux.1-dev";
    "stable_diffusion_xl"; "flux.1-schnell"; "stable_diffusion_2.1"; "stable_diffusion" ].

(** The body of the submission, lines 98-122. *)
Definition horde_submit_body (p : string) : json :=
  JObj [("prompt", JStr p);
        ("params", JObj [("width", JNum "1024"); ("height", JNum "1024"); ("steps", JNum "40");
                         ("n", JNum "1"); ("cfg_scale", JNum "8"); ("sampler_name", JStr "k_dpmpp_2m")]);
        ("models", JArr (map JStr horde_models));
        ("nsfw", JBool false); ("trusted_workers", JBool false); ("censor_nsfw", JBool false)].

Definition horde_submit_url : string := "https://stablehorde.net/api/v2/generate/async".

(** [submitRequest], lines 58-180. *)
(** The catch clause of [submitRequest], lines 168-179: the same without the
    [status] field. *)
Definition submit_error_response (error : exn) : http_response :=
  json_response 200 (JObj [("error", JStr (msg_or error.(ex_message) "Unknown error occurred"));
                           ("type", JStr (msg_or error.(ex_name) "Error"))]).

Definition submitRequest (req : request) : M http_response :=
  try_catch
    (b <- try_catch (body <- request_json req ;; ret (inr body)) (fun e => ret (inl e)) ;;
     match b with
     | inl e => ret (invalid_json_response e)
     | inr body =>
         prompt <- lift (get_prop body "prompt") ;;
         if negb (truthy prompt) then ret (json_response 200 prompt_required)
         else
           p <- lift (trim_value prompt) ;;
           submitResponse <- fetch (Call horde_submit_url "POST" (Some (horde_submit_body p))) ;;
           if negb (ok submitResponse) then
             errorText <- resp_text submitResponse ;;
             ret (json_response 200 (JObj [
               ("error", JStr ("AI Horde submission failed: " ++ Z_to_string submitResponse.(r_status)));
               ("details", JStr errorText)]))
           else
             submitData <- resp_json submitResponse ;;
             requestId <- lift (get_prop submitData "id") ;;
             if negb (truthy requestId) then
               ret (json_response 200 (JObj [
                 ("error", JStr "No request ID returned from AI Horde");
                 ("details", JStr (json_stringify submitData))]))
             else
               ret (json_response_default (JObj [
                 ("requestId", match requestId with Some r => r | None => JNull end);
                 ("status", JStr "submitted"); ("provider", JStr "aihorde");
                 ("message", JStr "Request submitted. Polling for result...")]))
     end)
    (fun error => ret (submit_error_response error)).

(** [imageResponse.headers.get('content-type') || 'image/png']. *)
Definition content_type_or_png (r : fetch_response) : string :=
  match r.(r_content_type) with
  | Some ct => msg_or ct "image/png"
  | None => "image/png"
  end.

(** [await imageResponse.arrayBuffer()] as bytes. *)
Definition resp_bytes (r : fetch_response) : M (list ascii) :=
  t <- resp_text r ;; ret (list_ascii_of_string t).

Definition error_status_response (msg details : string) : http_response :=
  json_response 200 (JObj [("error", JStr msg); ("details", JStr details); ("status", JStr "error")]).

(** Lines 266-314: the [dataUrl] for a result's [img] string. *)
Definition image_data_url (imageData : string) : M (sum http_response string) :=
  if orb (String.prefix "http://" imageData) (String.prefix "https://" imageData) then
    try_catch
      (imageResponse <- fetch (Call imageData "GET" None) ;;
       if negb (ok imageResponse) then
         ret (inl (error_status_response "Failed to fetch generated image"
                     ("HTTP " ++ Z_to_string imageResponse.(r_status))))
       else
         let contentType := content_type_or_png imageResponse in
         bytes <- resp_bytes imageResponse ;;
         let base64 := encode_bytes bytes in
         ret (inr ("data:" ++ contentType ++ ";base64," ++ base64)))
      (fun fetchError => ret (inl (error_status_response "Failed to fetch and convert image"
                                      fetchError.(ex_message))))
  else ret (inr ("data:image/png;base64," ++ imageData)).

Definition horde_check_url (requestId : string) : string :=
  "https://stablehorde.net/api/v2/generate/check/" ++ requestId.
Definition horde_status_url (requestId : string) : string :=
  "https://stablehorde.net/api/v2/generate/status/" ++ requestId.

(** [imageData.startsWith(...)] needs a string. *)
Definition as_string (v : json) : sum exn string :=
  match v with
  | JStr s => inr s
  | _ => inl (TypeError "imageData.startsWith is not a function")
  end.

(** [checkStatus], lines 182-353. *)
Definition checkStatus (requestId : string) : M http_response :=
  try_catch
    (statusResponse <- fetch (Call (horde_check_url requestId) "GET" None) ;;
     if negb (ok statusResponse) then
       ret (json_response 200 (JObj [
         ("error", JStr ("Failed to check status: " ++ Z_to_string statusResponse.(r_status)));
         ("status", JStr "error")]))
     else
       statusData <- resp_json statusResponse ;;
       faulted <- lift (get_prop statusData "faulted") ;;
       if truthy faulted then
         ret (json_response 200 (JObj [
           ("error", JStr "Image generation failed on AI Horde");
           ("details", match faulted with Some f => f | None => JNull end);
           ("status", JStr "failed")]))
       else
         done_ <- lift (get_prop statusData "done") ;;
         if negb (truthy done_) then
           qp <- lift (get_prop statusData "queue_position") ;;
           wt <- lift (get_prop statusData "wait_time") ;;
           ret (json_response_default (JObj [
             ("status", JStr "processing");
             ("queuePosition", js_or qp (JNum "0"));
             ("waitTime", js_or wt (JNum "0"));
             ("done", JBool false)]))
         else
           resultResponse <- fetch (Call (horde_status_url requestId) "GET" None) ;;
           if negb (ok resultResponse) then
             ret (error_status_response "Failed to get generation result"
                    ("Status: " ++ Z_to_string resultResponse.(r_status)))
           else
             resultData <- resp_json resultResponse ;;
             gens <- lift (get_prop resultData "generations") ;;
             img <- (if negb (truthy gens) then ret None
                     else len <- lift (get_member gens "length") ;;
                          if negb (js_gt0 len) then ret None
                          else g0 <- lift (get_member gens "0") ;;
                               im <- lift (get_member g0 "img") ;;
                               ret (if truthy im then im else None)) ;;
             match img with
             | Some imageValue =>
                 imageData <- lift (as_string imageValue) ;;
                 d <- image_data_url imageData ;;
                 match d with
                 | inl failure => ret failure
                 | inr dataUrl =>
                     ret (json_response_default (JObj [
                       ("imageUrl", JStr dataUrl); ("provider", JStr "aihorde");
                       ("status", JStr "completed")]))
                 end
             | None =>
                 ret (error_status_response "No image in generation result"
                        (json_stringify resultData))
             end)
    (fun error => ret (unknown_error_response error)).

(** [handleRequest] and the [fetch] handler, lines 6-56.  [new URL(request.url)]
    of a request the runtime delivers does not throw. *)
Definition handleRequest_horde (req : request) : M http_response :=
  if String.eqb req.(method) "OPTIONS" then ret preflight
  else
    let requestId := req.(requestId_param) in
    match requestId with
    | Some rid =>
        if andb (String.eqb req.(method) "GET") (str_truthy rid) then checkStatus rid
        else if String.eqb req.(method) "POST" then submitRequest req
        else ret method_not_allowed
    | None =>
        if String.eqb req.(method) "POST" then submitRequest req
        else ret method_not_allowed
    end.

Definition fetch_horde (req : request) : M http_response :=
  try_catch (handleRequest_horde req) (fun error => ret (worker_error_response error)).

End Program.

(* ------------------------------------------------------------------ *)
(** ** Transport-status contracts of the three handlers *)







(* ------------------------------------------------------------------ *)
(** ** Terminal records of the event stream, as the spec names them

    A complete line is a success record when its data object has status
    ["complete"] and a truthy [imageUrl], and an error record when its
    status is ["error"] (message defaulting to the decoder's [fallback]
    text: ["Unknown error from SubNP"] in part_000, ["Unknown error"] in
    part_001). *)

Inductive record_kind : Type :=
| RComplete (url : json)
| RError (message : json).

Definition record_of_line (fallback : json) (JSON_parse : JsonParser) (line : string)
  : option record_kind :=
  if String.prefix data_prefix line then
    match JSON_parse (js_slice_from 6 line) with
    | None => None
    | Some data =>
        match get_prop data "status" with
        | inl _ => None
        | inr dstatus =>
            match (if status_is dstatus "complete" then get_prop data "imageUrl" else inr None) with
            | inl _ => None
            | inr url =>
                if andb (status_is dstatus "complete") (truthy url) then
                  match url with Some u => Some (RComplete u) | None => None end
                else if status_is dstatus "error" then
                  match get_prop data "message" with
                  | inl _ => None
                  | inr msg => Some (RError (js_or msg fallback))
                  end
                else None
            end
        end
    end
  else None.

Definition completes (fallback : json) (JSON_parse : JsonParser) (lines : list string) : list json :=
  flat_map (fun l => match record_of_line fallback JSON_parse l with
                     | Some (RComplete u) => [u] | _ => [] end) lines.

Definition errors (fallback : json) (JSON_parse : JsonParser) (lines : list string) : list json :=
  flat_map (fun l => match record_of_line fallback JSON_parse l with
                     | Some (RError m) => [m] | _ => [] end) lines.

Definition last_opt {A} (l : list A) : option A := fold_left (fun _ x => Some x) l None.

(** The outcome the spec describes: the last error record if any, else the
    last success record if any, else no result. *)
Definition spec_outcome (fallback : json) (JSON_parse : JsonParser) (lines : list string)
  : sse_outcome :=
  match last_opt (errors fallback JSON_parse lines) with
  | Some m => SseError m
  | None =>
      match last_opt (completes fallback JSON_parse lines) with
      | Some u => SseImage u
      | None => SseNoImage
      end
  end.

(** Lines written out, each followed by a newline. *)
Definition join_lines (lines : list string) : string :=
  fold_right (fun l acc => l ++ String newline acc) EmptyString lines.

Definition has_newline (s : string) : bool :=
  existsb (fun c => Ascii.eqb c newline) (list_ascii_of_string s).

(* ------------------------------------------------------------------ *)
(** ** Concrete inputs: requests, backends and streams *)

(** A parser for concrete runs: [json_parse], whose [SyntaxError] message
    quotes the text. *)
Definition sample_parser : JsonParser :=
  MkJsonParser json_parse (fun text => "Unexpected token in JSON: " ++ text).

Definition endpoint_A : string := "https://t2i.mcpcore.xyz/api/free/generate".
Definition endpoint_B : string := "https://subnp.com/api/free/generate".

Definition body_with_prompt (p : string) : string := json_stringify (JObj [("prompt", JStr p)]).

Definition post_request (p : string) : request := Request "POST" None (body_with_prompt p).

Definition sample_url : string := "https://img.example/1.png".

Definition sample_record : json :=
  JObj [("status", JStr "complete"); ("imageUrl", JStr sample_url)].

Definition sample_lines : list string :=
  ["event: message"; "data: {oops"; data_prefix ++ json_stringify sample_record; ": keepalive"].

Definition sample_text : string := join_lines sample_lines.

(** A backend answering [status] with an event stream made of [sample_text]. *)
Definition stream_reply (status : Z) : fetch_response :=
  FetchResponse status None (Some [substring 0 20 sample_text;
                                   substring 20 (String.length sample_text - 20) sample_text]) None.

(** The first endpoint answers [statusA], the second [statusB]. *)
Definition two_endpoints (statusA statusB : Z) (c : call) : sum exn fetch_response :=
  if String.eqb (c_url c) endpoint_A then inr (stream_reply statusA) else inr (stream_reply statusB).

(** Every call throws [e]. *)
Definition offline (e : exn) (c : call) : sum exn fetch_response := inl e.

(* ------------------------------------------------------------------ *)
(** ** Correctness of computations in the monad *)

(** Partial correctness: every normal result satisfies [P]. *)
Definition Mprop {A} (P : A -> Prop) (m : M A) : Prop :=
  forall tr, match snd (m tr) with inr a => P a | inl _ => True end.

(** Total correctness: the computation returns normally, with [P]. *)
Definition Mtotal {A} (P : A -> Prop) (m : M A) : Prop :=
  forall tr, exists a, snd (m tr) = inr a /\ P a.

(* ------------------------------------------------------------------ *)
(** ** Outbound calls and the shape of encoded text *)

(** The calls a computation makes: from any trace it appends at most [n]
    calls, each satisfying [Q]. *)
Definition Mcalls {A} (Q : call -> Prop) (n : nat) (m : M A) : Prop :=
  forall tr, exists cs, fst (m tr) = (tr ++ cs)%list /\ length cs <= n /\ Forall Q cs.

(** [k] padding characters [=]. *)
Fixpoint padding (k : nat) : string :=
  match k with O => EmptyString | S k' => String "=" (padding k') end.

(** Every character is one of the 64 of the base64 alphabet. *)
Definition all_base64 (s : string) : bool :=
  forallb (fun c => match Base64.char_sextet c with Some _ => true | None => false end)
          (list_ascii_of_string s).

(** A backend answering [status] with the body [text]. *)
Definition answer (status : Z) (text : string) : fetch_response :=
  FetchResponse status None (Some [text]) None.

(** A network answering every call with [r]. *)
Definition always (r : fetch_response) (c : call) : sum exn fetch_response := inr r.

(** The AI Horde answering a status check with [check], a result request
    with [result] and any other call with [other]. *)
Definition horde_net (check result other : fetch_response) (c : call) : sum exn fetch_response :=
  if String.prefix "https://stablehorde.net/api/v2/generate/check/" (c_url c) then inr check
  else if String.prefix "https://stablehorde.net/api/v2/generate/status/" (c_url c) then inr result
  else inr other.

Definition done_answer : fetch_response := answer 200 (json_stringify (JObj [("done", JBool true)])).

(** Kinds of outbound call: a POST to one of the SubNP endpoints, a GET
    without a body, the AI Horde submission, and the proxy's POST. *)
Definition subnp_post (c : call) : Prop := In (c_url c) apiUrls /\ c_method c = "POST".
Definition horde_get (c : call) : Prop := c_method c = "GET" /\ c_body c = None.
Definition horde_submit (c : call) : Prop :=
  exists p, c = Call horde_submit_url "POST" (Some (horde_submit_body p)).
Definition proxy_post_call (c : call) : Prop :=
  c_url c = "https://t2i.mcpcore.xyz/api/free/generate" /\ c_method c = "POST".

(** The states of the two stream decoders agree on the image reference and
    on the error message, except that an error event without a message
    leaves each decoder's own fallback text. *)
Definition decoder_related (st : sse_state) (p : option json * option json) : Prop :=
  fst p = imageUrl st /\
  (snd p = errorMessage st \/
   (snd p = Some (JStr "Unknown error") /\ errorMessage st = Some (JStr "Unknown error from SubNP"))).

(* ------------------------------------------------------------------ *)
(** ** Binary Encoder: proofs *)

(** Linear arithmetic on [N] with division and remainder by constants. *)
Ltac nlia := zify; Z.to_euclidean_division_equations; lia.

Module Base64Facts.
Import Base64.

Lemma sextet_roundtrip_all :
  forallb (fun n => match char_sextet (sextet_char (N.of_nat n)) with
                    | Some m => N.eqb m (N.of_nat n) | None => false end)
          (seq 0 64) = true.
Proof. vm_compute. reflexivity. Qed.

Lemma sextet_roundtrip (n : N) : (n < 64)%N -> char_sextet (sextet_char n) = Some n.
Proof.
  intro Hn.
  pose proof (proj1 (forallb_forall _ _) sextet_roundtrip_all (N.to_nat n)) as H.
  cbv beta in H. rewrite N2Nat.id in H.
  assert (Hin : In (N.to_nat n) (seq 0 64)) by (apply in_seq; lia).
  specialize (H Hin).
  destruct (char_sextet (sextet_char n)) as [m|]; [|discriminate].
  apply N.eqb_eq in H. now subst.
Qed.

Lemma sextet_not_pad (n : N) : (n < 64)%N -> Ascii.eqb (sextet_char n) "=" = false.
Proof.
  intro Hn.
  pose proof (sextet_roundtrip n Hn) as H.
  destruct (Ascii.eqb (sextet_char n) "=") eqn:E; [|reflexivity].
  apply Ascii.eqb_eq in E. rewrite E in H. vm_compute in H. discriminate.
Qed.

Lemma byte_lt (a : ascii) : (byte a < 256)%N.
Proof. apply N_ascii_bounded. Qed.

Lemma byte_back (e : N) (a : ascii) : e = byte a -> ascii_of_N e = a.
Proof. intros ->. apply ascii_N_embedding. Qed.

Lemma atob_btoa_len (n : nat) (l : list ascii) :
  length l <= n -> atob (btoa l) = Some l.
Proof.
  revert l; induction n as [n IH] using (well_founded_induction lt_wf); intros l Hl.
  destruct l as [|a [|b [|c rest]]].
  - reflexivity.
  - pose proof (byte_lt a).
    simpl btoa.
    assert (E1 : (byte a / 4 < 64)%N) by nlia.
    assert (E2 : ((byte a mod 4) * 16 < 64)%N) by nlia.
    cbn [atob]. rewrite (sextet_roundtrip _ E1), (sextet_roundtrip _ E2). cbn.
    f_equal. f_equal. apply byte_back. nlia.
  - pose proof (byte_lt a). pose proof (byte_lt b).
    simpl btoa.
    assert (E1 : (byte a / 4 < 64)%N) by nlia.
    assert (E2 : ((byte a mod 4) * 16 + byte b / 16 < 64)%N) by nlia.
    assert (E3 : ((byte b mod 16) * 4 < 64)%N) by nlia.
    cbn [atob]. rewrite (sextet_roundtrip _ E1), (sextet_roundtrip _ E2).
    rewrite (sextet_not_pad _ E3). simpl andb. rewrite (sextet_roundtrip _ E3). cbn.
    f_equal. f_equal; [|f_equal]; apply byte_back; nlia.
  - pose proof (byte_lt a). pose proof (byte_lt b). pose proof (byte_lt c).
    simpl btoa.
    assert (E1 : (byte a / 4 < 64)%N) by nlia.
    assert (E2 : ((byte a mod 4) * 16 + byte b / 16 < 64)%N) by nlia.
    assert (E3 : ((byte b mod 16) * 4 + byte c / 64 < 64)%N) by nlia.
    assert (E4 : (byte c mod 64 < 64)%N) by nlia.
    cbn [atob]. rewrite (sextet_roundtrip _ E1), (sextet_roundtrip _ E2).
    rewrite (sextet_not_pad _ E3). simpl andb. rewrite (sextet_roundtrip _ E3).
    rewrite (sextet_not_pad _ E4), (sextet_roundtrip _ E4).
    simpl in Hl.
    rewrite (IH (length rest) ltac:(lia) rest (le_n _)).
    f_equal. f_equal; [|f_equal; [|f_equal]]; apply byte_back; nlia.
Qed.

End Base64Facts.

Lemma chunk_loop_spec (bytes : list ascii) (fuel i : nat) (binary : list ascii) :
  length bytes <= i + fuel * chunkSize ->
  chunk_loop fuel bytes i binary = (binary ++ skipn i bytes)%list.
Proof.
  revert i binary; induction fuel as [|fuel IH]; intros i binary Hlen; simpl.
  - rewrite skipn_all2 by lia. now rewrite app_nil_r.
  - destruct (Nat.ltb i (length bytes)) eqn:E.
    + rewrite IH by lia. rewrite <- app_assoc. f_equal.
      unfold fromCharCode, array_from, slice.
      rewrite map_map, (map_ext _ id) by apply ascii_N_embedding.
      rewrite map_id.
      replace (i + chunkSize - i) with chunkSize by lia.
      replace (i + chunkSize) with (chunkSize + i) by lia.
      rewrite <- skipn_skipn. apply firstn_skipn.
    + apply Nat.ltb_ge in E. rewrite skipn_all2 by lia. now rewrite app_nil_r.
Qed.

Lemma fromCharCode_array_from (l : list ascii) : fromCharCode (array_from l) = l.
Proof.
  unfold fromCharCode, array_from. rewrite map_map.
  rewrite (map_ext _ id) by apply ascii_N_embedding. apply map_id.
Qed.

(** C6: the Binary Encoder round-trips, and its 8192-byte chunked processing
    yields the same text as encoding the whole byte sequence at once. *)
Theorem encode_bytes_roundtrip (bytes : list ascii) :
  encode_bytes bytes = encode_whole bytes /\
  Base64.atob (encode_bytes bytes) = Some bytes.
Proof.
  assert (H : encode_bytes bytes = encode_whole bytes).
  { unfold encode_bytes, encode_whole.
    assert (Hc : 1 <= chunkSize) by (apply Nat.leb_le; reflexivity).
    rewrite chunk_loop_spec by nia.
    now rewrite fromCharCode_array_from. }
  split; [exact H|].
  rewrite H. unfold encode_whole. rewrite fromCharCode_array_from.
  apply (Base64Facts.atob_btoa_len (length bytes)). lia.
Qed.

(* ------------------------------------------------------------------ *)
(** ** Reasoning about the monad *)

Section MonadFacts.

Lemma Mprop_ret {A} (P : A -> Prop) a : P a -> Mprop P (ret a).
Proof. intros H tr. exact H. Qed.

Lemma Mprop_throw {A} (P : A -> Prop) e : Mprop P (throw e).
Proof. intros tr. exact I. Qed.

Lemma Mprop_bind {A B} (P : B -> Prop) (m : M A) (k : A -> M B) :
  (forall a, Mprop P (k a)) -> Mprop P (bind m k).
Proof.
  intros Hk tr. unfold bind. destruct (m tr) as [tr' [e|a]]; [exact I|]. apply Hk.
Qed.

Lemma Mprop_bind_with {A B} (Q : A -> Prop) (P : B -> Prop) (m : M A) (k : A -> M B) :
  Mprop Q m -> (forall a, Q a -> Mprop P (k a)) -> Mprop P (bind m k).
Proof.
  intros Hm Hk tr. unfold bind. specialize (Hm tr).
  destruct (m tr) as [tr' [e|a]]; [exact I|]. now apply Hk.
Qed.


Lemma Mprop_try {A} (P : A -> Prop) (m : M A) (h : exn -> M A) :
  Mprop P m -> (forall e, Mprop P (h e)) -> Mprop P (try_catch m h).
Proof.
  intros Hm Hh tr. unfold try_catch. specialize (Hm tr).
  destruct (m tr) as [tr' [e|a]]; [apply Hh|exact Hm].
Qed.


Lemma Mtotal_try {A} (P : A -> Prop) (m : M A) (h : exn -> M A) :
  Mprop P m -> (forall e, Mtotal P (h e)) -> Mtotal P (try_catch m h).
Proof.
  intros Hm Hh tr. unfold try_catch. specialize (Hm tr).
  destruct (m tr) as [tr' [e|a]]; [apply Hh|]. exists a. split; [reflexivity|exact Hm].
Qed.

Lemma Mtotal_of_try {A} (P : A -> Prop) (m : M A) (h : exn -> M A) :
  Mprop P (try_catch m h) -> (forall e tr, exists a, snd (h e tr) = inr a) ->
  Mtotal P (try_catch m h).
Proof.
  intros Hp Hh tr. specialize (Hp tr). unfold try_catch in *.
  destruct (m tr) as [tr' [e|a]].
  - destruct (Hh e tr') as [a Ha]. rewrite Ha in Hp. exists a. now split.
  - exists a. now split.
Qed.



End MonadFacts.

(** Walk a computation down to its [ret] and [throw] leaves. *)
Ltac mprop_walk :=
  repeat first
    [ apply Mprop_bind; intro
    | apply Mprop_try; [|intro]
    | apply Mprop_throw
    | match goal with
      | |- Mprop _ (match ?x with _ => _ end) => destruct x eqn:?
      | |- Mprop _ (if ?b then _ else _) => destruct b eqn:?
      | |- Mprop _ (let (_, _) := ?p in _) => destruct p eqn:?
      | |- Mprop _ (let _ := _ in _) => cbv zeta
      end ].

Lemma Mprop_stream_response JSON_parse (r : fetch_response) :
  Mprop (fun resp => h_status resp = 200%Z) (stream_response JSON_parse r).
Proof.
  unfold stream_response. mprop_walk; apply Mprop_ret; reflexivity.
Qed.

Lemma Mprop_endpoint_failure ar le :
  Mprop (fun resp => h_status resp = 200%Z) (endpoint_failure ar le).
Proof.
  unfold endpoint_failure, resp_text. mprop_walk; apply Mprop_ret; reflexivity.
Qed.

Lemma Mprop_generateImage_aux JSON_parse net req :
  Mprop (fun resp => h_status resp = 200%Z) (generateImage JSON_parse net req).
Proof.
  unfold generateImage.
  apply Mprop_try; [|intro; apply Mprop_ret; reflexivity].
  unfold request_json, lift. mprop_walk;
    try (apply Mprop_ret; reflexivity);
    try apply Mprop_stream_response; try apply Mprop_endpoint_failure.
Qed.

Lemma Mprop_image_data_url net d :
  Mprop (fun x => match x with inl resp => h_status resp = 200%Z | inr _ => True end)
        (image_data_url net d).
Proof.
  unfold image_data_url, resp_bytes, resp_text, fetch. mprop_walk;
    apply Mprop_ret; simpl; auto.
Qed.

Lemma Mprop_submitRequest_aux JSON_parse net req :
  Mprop (fun resp => h_status resp = 200%Z) (submitRequest JSON_parse net req).
Proof.
  unfold submitRequest, request_json, resp_json, resp_text, lift.
  mprop_walk; apply Mprop_ret; reflexivity.
Qed.

Lemma Mprop_checkStatus_aux JSON_parse net rid :
  Mprop (fun resp => h_status resp = 200%Z) (checkStatus JSON_parse net rid).
Proof.
  unfold checkStatus.
  apply Mprop_try; [|intro; apply Mprop_ret; reflexivity].
  unfold resp_json, resp_text, lift.
  repeat first
    [ apply (Mprop_bind_with _ _ _ _ (Mprop_image_data_url net _)); intros ? ?
    | apply Mprop_bind; intro
    | apply Mprop_throw
    | match goal with
      | |- Mprop _ (match ?x with _ => _ end) => destruct x eqn:?
      | |- Mprop _ (if ?b then _ else _) => destruct b eqn:?
      | |- Mprop _ (let _ := _ in _) => cbv zeta
      end ];
    try (apply Mprop_ret; first [reflexivity | assumption]).
Qed.

Ltac ret_total := intros; eexists; reflexivity.

Lemma Mtotal_generateImage JSON_parse net req :
  Mtotal (fun resp => h_status resp = 200%Z) (generateImage JSON_parse net req).
Proof. apply Mtotal_of_try; [apply Mprop_generateImage_aux|ret_total]. Qed.

Lemma Mtotal_submitRequest JSON_parse net req :
  Mtotal (fun resp => h_status resp = 200%Z) (submitRequest JSON_parse net req).
Proof. apply Mtotal_of_try; [apply Mprop_submitRequest_aux|ret_total]. Qed.

Lemma Mtotal_checkStatus JSON_parse net rid :
  Mtotal (fun resp => h_status resp = 200%Z) (checkStatus JSON_parse net rid).
Proof. apply Mtotal_of_try; [apply Mprop_checkStatus_aux|ret_total]. Qed.





(* ------------------------------------------------------------------ *)
(** ** Event-Stream Decoder: proofs *)

Module SseFacts.

Lemma str_app_assoc (a b c : string) : (a ++ b) ++ c = a ++ (b ++ c).
Proof. induction a; simpl; congruence. Qed.

Lemma str_app_nil_r (a : string) : a ++ EmptyString = a.
Proof. induction a; simpl; congruence. Qed.

Lemma split_lines_app (s t : string) :
  split_lines (s ++ t) =
  let (ls, r) := split_lines s in
  let (ls2, r2) := split_lines (r ++ t) in ((ls ++ ls2)%list, r2).
Proof.
  induction s as [|c s IH]; simpl.
  - now destruct (split_lines t).
  - rewrite IH. destruct (split_lines s) as [ls r].
    destruct (split_lines (r ++ t)) as [ls2 r2] eqn:E.
    destruct (Ascii.eqb c newline) eqn:Ec; [simpl; rewrite E; reflexivity|].
    destruct ls as [|l ls]; simpl; try rewrite E; try rewrite Ec;
      try destruct ls2; reflexivity.
Qed.

Lemma split_lines_no_newline (s : string) :
  has_newline s = false -> split_lines s = ([], s).
Proof.
  unfold has_newline. induction s as [|c s IH]; simpl; [reflexivity|].
  intro H. apply orb_false_iff in H as [H1 H2].
  rewrite (IH H2), H1. reflexivity.
Qed.

Lemma split_lines_fragment (s : string) : has_newline (snd (split_lines s)) = false.
Proof.
  unfold has_newline. induction s as [|c s IH]; simpl; [reflexivity|].
  destruct (split_lines s) as [ls r]. simpl in IH.
  destruct (Ascii.eqb c newline) eqn:E; [exact IH|].
  destruct ls; simpl; [rewrite E|]; exact IH.
Qed.

(** [split_lines] cuts the text into newline-free lines and a fragment. *)
Lemma split_lines_join (s : string) :
  let (ls, r) := split_lines s in
  s = fold_right (fun l acc => l ++ String newline acc) r ls /\
  forallb (fun l => negb (has_newline l)) ls = true.
Proof.
  unfold has_newline. induction s as [|c s IH]; simpl; [split; reflexivity|].
  destruct (split_lines s) as [ls r]. destruct IH as [IH1 IH2].
  destruct (Ascii.eqb c newline) eqn:E.
  - apply Ascii.eqb_eq in E. subst c. simpl. split; [now rewrite IH1|exact IH2].
  - destruct ls as [|l ls]; simpl in *.
    + split; [now rewrite IH1|reflexivity].
    + split; [now rewrite IH1|]. rewrite E. exact IH2.
Qed.

Lemma pop_fragment_split (s : string) : pop_fragment (js_split_nl s) = split_lines s.
Proof.
  unfold pop_fragment, js_split_nl. destruct (split_lines s) as [ls r].
  rewrite rev_unit, rev_involutive. f_equal.
  unfold str_truthy. destruct (String.eqb_spec r EmptyString) as [->|]; reflexivity.
Qed.

Lemma read_loop_spec {S : Type} (step : S -> string -> S) (chunks : list string) :
  forall buf st, has_newline buf = false ->
  read_loop step chunks buf st =
  let (ls, r) := split_lines (buf ++ concat_text chunks) in (r, fold_left step ls st).
Proof.
  induction chunks as [|c rest IH]; intros buf st Hb; simpl.
  - rewrite str_app_nil_r, (split_lines_no_newline _ Hb). reflexivity.
  - rewrite pop_fragment_split.
    pose proof (split_lines_fragment (buf ++ c)) as Hf.
    rewrite <- str_app_assoc, (split_lines_app (buf ++ c) (concat_text rest)).
    destruct (split_lines (buf ++ c)) as [ls r]. simpl in Hf.
    rewrite (IH r (fold_left step ls st) Hf).
    destruct (split_lines (r ++ concat_text rest)) as [ls2 r2].
    now rewrite fold_left_app.
Qed.

(** The read loop from an empty buffer. *)
Lemma read_loop_text {S : Type} (step : S -> string -> S) (chunks : list string) (st : S) :
  read_loop step chunks EmptyString st =
  (snd (split_lines (concat_text chunks)), fold_left step (fst (split_lines (concat_text chunks))) st).
Proof.
  rewrite (read_loop_spec step chunks EmptyString st eq_refl). simpl.
  now destruct (split_lines (concat_text chunks)).
Qed.

Lemma process_line_record JSON_parse st line :
  (imageUrl (process_line JSON_parse st line), errorMessage (process_line JSON_parse st line)) =
  match record_of_line (JStr "Unknown error from SubNP") JSON_parse line with
  | Some (RComplete u) => (Some u, errorMessage st)
  | Some (RError m) => (imageUrl st, Some m)
  | None => (imageUrl st, errorMessage st)
  end.
Proof.
  unfold process_line, record_of_line.
  repeat match goal with
         | |- context [match ?x with _ => _ end] => destruct x eqn:?
         end; subst; try reflexivity;
  match goal with
  | o : option json |- _ => destruct o; simpl in *; rewrite ?andb_false_r in *; congruence
  end.
Qed.

Lemma process_line_proxy_record JSON_parse p line :
  process_line_proxy JSON_parse p line =
  match record_of_line (JStr "Unknown error") JSON_parse line with
  | Some (RComplete u) => (Some u, snd p)
  | Some (RError m) => (fst p, Some m)
  | None => p
  end.
Proof.
  destruct p as [u0 e0].
  unfold process_line_proxy. cbv beta iota. unfold record_of_line.
  repeat match goal with
         | |- context [match ?x with _ => _ end] => destruct x eqn:?
         end; subst; try reflexivity;
  match goal with
  | o : option json |- _ => destruct o; simpl in *; rewrite ?andb_false_r in *; congruence
  end.
Qed.

Lemma fold_process_line JSON_parse (lines : list string) : forall st,
  imageUrl (fold_left (process_line JSON_parse) lines st) =
    fold_left (fun _ x => Some x) (completes (JStr "Unknown error from SubNP") JSON_parse lines)
      (imageUrl st) /\
  errorMessage (fold_left (process_line JSON_parse) lines st) =
    fold_left (fun _ x => Some x) (errors (JStr "Unknown error from SubNP") JSON_parse lines)
      (errorMessage st).
Proof.
  induction lines as [|l lines IH]; intro st; simpl; [split; reflexivity|].
  unfold completes, errors in *. simpl.
  rewrite !fold_left_app.
  destruct (IH (process_line JSON_parse st l)) as [H1 H2]. rewrite H1, H2.
  pose proof (process_line_record JSON_parse st l) as Hr.
  destruct (record_of_line _ JSON_parse l) as [[u|m]|]; injection Hr as -> ->; simpl; split; reflexivity.
Qed.

Lemma fold_process_line_proxy JSON_parse (lines : list string) : forall p,
  fold_left (process_line_proxy JSON_parse) lines p =
  (fold_left (fun _ x => Some x) (completes (JStr "Unknown error") JSON_parse lines) (fst p),
   fold_left (fun _ x => Some x) (errors (JStr "Unknown error") JSON_parse lines) (snd p)).
Proof.
  induction lines as [|l lines IH]; intro p; simpl; [destruct p; reflexivity|].
  unfold completes, errors in *. simpl.
  rewrite !fold_left_app, IH, (process_line_proxy_record JSON_parse p l).
  destruct (record_of_line _ JSON_parse l) as [[u|m]|]; reflexivity.
Qed.

Lemma fold_some_in {A} (l : list A) (d : option A) (x : A) :
  fold_left (fun _ y => Some y) l d = Some x -> In x l \/ d = Some x.
Proof.
  revert d. induction l as [|a l IH]; intros d H; simpl in *; [now right|].
  destruct (IH _ H) as [Hin|Heq]; [now left; right|]. injection Heq as ->. now left; left.
Qed.

Lemma js_or_truthy (a : option json) (d : json) :
  truthy (Some d) = true -> truthy (Some (js_or a d)) = true.
Proof.
  unfold js_or. destruct (truthy a) eqn:E; [|auto]. destruct a; [exact (fun _ => E)|discriminate].
Qed.

Lemma record_truthy fallback JSON_parse line :
  truthy (Some fallback) = true ->
  match record_of_line fallback JSON_parse line with
  | Some (RComplete u) => truthy (Some u) = true
  | Some (RError m) => truthy (Some m) = true
  | None => True
  end.
Proof.
  intro Hfb. unfold record_of_line.
  destruct (String.prefix data_prefix line); [|exact I].
  destruct (JSON_parse (js_slice_from 6 line)) as [data|]; [|exact I].
  destruct (get_prop data "status") as [|dstatus]; [exact I|].
  destruct (if status_is dstatus "complete" then get_prop data "imageUrl" else inr None)
    as [|url]; [exact I|].
  destruct (andb (status_is dstatus "complete") (truthy url)) eqn:Ec.
  - apply andb_true_iff in Ec as [_ Ec]. destruct url; [exact Ec|exact I].
  - destruct (status_is dstatus "error"); [|exact I].
    destruct (get_prop data "message"); [exact I|].
    apply js_or_truthy. exact Hfb.
Qed.

Lemma errors_truthy fallback JSON_parse lines m :
  truthy (Some fallback) = true ->
  In m (errors fallback JSON_parse lines) -> truthy (Some m) = true.
Proof.
  intro Hfb. unfold errors. rewrite in_flat_map. intros [l [_ Hm]].
  pose proof (record_truthy fallback JSON_parse l Hfb) as H.
  destruct (record_of_line fallback JSON_parse l) as [[u|m']|]; simpl in Hm; try contradiction.
  destruct Hm as [<-|[]]. exact H.
Qed.

Lemma completes_truthy fallback JSON_parse lines u :
  truthy (Some fallback) = true ->
  In u (completes fallback JSON_parse lines) -> truthy (Some u) = true.
Proof.
  intro Hfb. unfold completes. rewrite in_flat_map. intros [l [_ Hu]].
  pose proof (record_truthy fallback JSON_parse l Hfb) as H.
  destruct (record_of_line fallback JSON_parse l) as [[u'|m]|]; simpl in Hu; try contradiction.
  destruct Hu as [<-|[]]. exact H.
Qed.

(** The outcome computed from the last records, for both decoders. *)
Lemma outcome_of_last fallback JSON_parse lines (e0 u0 : option json) :
  truthy (Some fallback) = true ->
  e0 = fold_left (fun _ x => Some x) (errors fallback JSON_parse lines) None ->
  u0 = fold_left (fun _ x => Some x) (completes fallback JSON_parse lines) None ->
  (if truthy e0 then SseError (match e0 with Some m => m | None => JNull end)
   else if negb (truthy u0) then SseNoImage
   else SseImage (match u0 with Some u => u | None => JNull end)) =
  spec_outcome fallback JSON_parse lines.
Proof.
  intros Hfb -> ->. unfold spec_outcome, last_opt.
  destruct (fold_left (fun _ x => Some x) (errors fallback JSON_parse lines) None) as [m|] eqn:Em.
  - destruct (fold_some_in _ _ _ Em) as [Hin|]; [|discriminate].
    now rewrite (errors_truthy _ _ _ _ Hfb Hin).
  - simpl. destruct (fold_left (fun _ x => Some x) (completes fallback JSON_parse lines) None)
      as [u|] eqn:Eu.
    + destruct (fold_some_in _ _ _ Eu) as [Hin|]; [|discriminate].
      now rewrite (completes_truthy _ _ _ _ Hfb Hin).
    + reflexivity.
Qed.

Lemma sse_result_fold JSON_parse lines :
  sse_result (fold_left (process_line JSON_parse) lines sse_init) =
  spec_outcome (JStr "Unknown error from SubNP") JSON_parse lines.
Proof.
  destruct (fold_process_line JSON_parse lines sse_init) as [H1 H2].
  unfold sse_result. rewrite H1, H2. apply outcome_of_last; reflexivity.
Qed.

Lemma proxy_result_fold JSON_parse lines :
  proxy_result (fold_left (process_line_proxy JSON_parse) lines (None, None)) =
  spec_outcome (JStr "Unknown error") JSON_parse lines.
Proof.
  rewrite fold_process_line_proxy. unfold proxy_result. apply outcome_of_last; reflexivity.
Qed.

End SseFacts.

(** C2: each decoder reads the whole stream and reports the last error
    record if one appeared, otherwise the last success record (a [complete]
    record with a truthy [imageUrl]), otherwise no result; the records are
    those of every newline-terminated line of the stream's text.  This holds
    for the SubNP Worker's decoder ([part_000], error text defaulting to
    [Unknown error from SubNP]) and for the CORS proxy's ([part_001], error
    text defaulting to [Unknown error]). *)
Theorem decode_stream_last_terminal (JSON_parse : JsonParser) (chunks : list string) :
  decode_stream JSON_parse chunks =
    spec_outcome (JStr "Unknown error from SubNP") JSON_parse
      (fst (split_lines (concat_text chunks))) /\
  decode_stream_proxy JSON_parse chunks =
    spec_outcome (JStr "Unknown error") JSON_parse (fst (split_lines (concat_text chunks))).
Proof.
  split.
  - unfold decode_stream. rewrite SseFacts.read_loop_text. simpl.
    apply SseFacts.sse_result_fold.
  - unfold decode_stream_proxy. rewrite SseFacts.read_loop_text. simpl.
    apply SseFacts.proxy_result_fold.
Qed.

Module SseLines.

Lemma split_lines_line (l s : string) :
  has_newline l = false ->
  split_lines (l ++ String newline s) =
  let (ls, r) := split_lines s in (l :: ls, r).
Proof.
  unfold has_newline. induction l as [|c l IH]; intro Hl; simpl.
  - destruct (split_lines s). reflexivity.
  - simpl in Hl. apply orb_false_iff in Hl as [Hc Hl].
    rewrite (IH Hl). destruct (split_lines s) as [ls r]. rewrite Hc. reflexivity.
Qed.

Lemma split_lines_join_lines (ls : list string) :
  forallb (fun l => negb (has_newline l)) ls = true ->
  split_lines (join_lines ls) = (ls, EmptyString).
Proof.
  induction ls as [|l ls IH]; intro H; simpl; [reflexivity|].
  apply andb_true_iff in H as [H1 H2]. apply negb_true_iff in H1.
  rewrite (split_lines_line _ _ H1), (IH H2). reflexivity.
Qed.

(** A line that is not a well-formed record leaves no record. *)
Lemma record_of_line_skip fallback (JSON_parse : JsonParser) l :
  orb (negb (String.prefix data_prefix l))
      (match JSON_parse (js_slice_from 6 l) with None => true | Some _ => false end) = true ->
  record_of_line fallback JSON_parse l = None.
Proof.
  unfold record_of_line. destruct (String.prefix data_prefix l); simpl; [|reflexivity].
  destruct (JSON_parse (js_slice_from 6 l)); [discriminate|reflexivity].
Qed.

Lemma skip_lines_records fallback (JSON_parse : JsonParser) ls :
  forallb (fun l => orb (negb (String.prefix data_prefix l))
      (match JSON_parse (js_slice_from 6 l) with None => true | Some _ => false end)) ls = true ->
  completes fallback JSON_parse ls = [] /\ errors fallback JSON_parse ls = [].
Proof.
  induction ls as [|l ls IH]; intro H; simpl; [split; reflexivity|].
  apply andb_true_iff in H as [H1 H2].
  unfold completes, errors in *. simpl. rewrite (record_of_line_skip _ _ _ H1).
  exact (IH H2).
Qed.

Lemma completes_app fallback JSON_parse l1 l2 :
  completes fallback JSON_parse (l1 ++ l2) =
  (completes fallback JSON_parse l1 ++ completes fallback JSON_parse l2)%list.
Proof. unfold completes. apply flat_map_app. Qed.

Lemma errors_app fallback JSON_parse l1 l2 :
  errors fallback JSON_parse (l1 ++ l2) =
  (errors fallback JSON_parse l1 ++ errors fallback JSON_parse l2)%list.
Proof. unfold errors. apply flat_map_app. Qed.

End SseLines.

(** C7: the outcome of each decoder (the SubNP Worker's of [part_000] and
    the CORS proxy's of [part_001]) depends only on the concatenated text of
    the chunks.  Moreover, for both decoders' per-line steps (and any other),
    from an empty buffer the read loop ends with the newline-free fragment
    after the last newline as its buffer, having applied the step exactly to
    the newline-delimited lines of the text (each newline-free, in order),
    and each chunk is appended to the buffer, split, and its complete lines
    processed before the next one. *)
Theorem decode_stream_chunking (JSON_parse : JsonParser)
  (chunks1 chunks2 : list string)
  (Hsame : concat_text chunks1 = concat_text chunks2) :
  decode_stream JSON_parse chunks1 = decode_stream JSON_parse chunks2 /\
  decode_stream_proxy JSON_parse chunks1 = decode_stream_proxy JSON_parse chunks2 /\
  (forall (S : Type) (step : S -> string -> S) (st0 : S),
   let (lines, fragment) := split_lines (concat_text chunks1) in
   read_loop step chunks1 EmptyString st0 = (fragment, fold_left step lines st0) /\
   has_newline fragment = false /\
   forallb (fun l => negb (has_newline l)) lines = true /\
   concat_text chunks1 = fold_right (fun l acc => l ++ String newline acc) fragment lines) /\
  (forall (S : Type) (step : S -> string -> S) value rest buffer st,
   read_loop step (value :: rest) buffer st =
   let (lines, fragment) := split_lines (buffer ++ value) in
   read_loop step rest fragment (fold_left step lines st)).
Proof.
  split; [|split; [|split]].
  - unfold decode_stream. rewrite !SseFacts.read_loop_text, Hsame. reflexivity.
  - unfold decode_stream_proxy. rewrite !SseFacts.read_loop_text, Hsame. reflexivity.
  - intros S step st0. rewrite SseFacts.read_loop_text.
    pose proof (SseFacts.split_lines_join (concat_text chunks1)) as J.
    pose proof (SseFacts.split_lines_fragment (concat_text chunks1)) as F.
    destruct (split_lines (concat_text chunks1)) as [ls r]. simpl in *.
    destruct J as [J1 J2]. auto.
  - intros S step value rest buffer st. simpl. rewrite SseFacts.pop_fragment_split. reflexivity.
Qed.

(** C8: in a stream whose lines are a complete record (a [data: ] line whose
    JSON has status [complete] and a truthy [imageUrl] [u]) among lines that
    either lack the [data: ] prefix or fail to parse, the decoder reports
    success with [u], however the text is cut into chunks.  A line without the
    prefix, and a prefixed line that fails to parse, leave the decoder's
    state unchanged. *)
Theorem decode_stream_skips_malformed (JSON_parse : JsonParser)
  (pre post : list string) (line : string) (data u : json) (chunks : list string)
  (Hskip : forallb (fun l => orb (negb (String.prefix data_prefix l))
      (match JSON_parse (js_slice_from 6 l) with None => true | Some _ => false end))
      (pre ++ post) = true)
  (Hlines : forallb (fun l => negb (has_newline l)) (pre ++ line :: post) = true)
  (Hprefix : String.prefix data_prefix line = true)
  (Hparse : JSON_parse (js_slice_from 6 line) = Some data)
  (Hstatus : get_prop data "status" = inr (Some (JStr "complete")))
  (Hurl : get_prop data "imageUrl" = inr (Some u))
  (Htruthy : truthy (Some u) = true)
  (Hstream : concat_text chunks = join_lines (pre ++ line :: post)) :
  decode_stream JSON_parse chunks = SseImage u /\
  (forall st l, String.prefix data_prefix l = false -> process_line JSON_parse st l = st) /\
  (forall st l, JSON_parse (js_slice_from 6 l) = None -> process_line JSON_parse st l = st).
Proof.
  split; [|split].
  - unfold decode_stream. rewrite SseFacts.read_loop_text. simpl.
    rewrite SseFacts.sse_result_fold, Hstream, (SseLines.split_lines_join_lines _ Hlines). simpl.
    rewrite forallb_app in Hskip. apply andb_true_iff in Hskip as [Hpre Hpost].
    destruct (SseLines.skip_lines_records (JStr "Unknown error from SubNP") _ _ Hpre) as [Cp Ep].
    destruct (SseLines.skip_lines_records (JStr "Unknown error from SubNP") _ _ Hpost) as [Cq Eq].
    assert (Hrec : record_of_line (JStr "Unknown error from SubNP") JSON_parse line = Some (RComplete u)).
    { unfold record_of_line. rewrite Hprefix, Hparse, Hstatus. simpl.
      rewrite Hurl, Htruthy. reflexivity. }
    unfold spec_outcome.
    change (line :: post) with ([line] ++ post)%list.
    rewrite SseLines.errors_app, SseLines.errors_app, SseLines.completes_app,
      SseLines.completes_app, Cp, Ep, Cq, Eq.
    unfold errors, completes. simpl. rewrite Hrec. reflexivity.
  - intros st l H. unfold process_line. rewrite H. reflexivity.
  - intros st l H. unfold process_line. rewrite H. destruct (String.prefix data_prefix l); reflexivity.
Qed.

(* ------------------------------------------------------------------ *)
(** ** The endpoint loop of [generateImage]: proofs *)

Module EndpointFacts.

(** One iteration of the loop, for a string prompt. *)
Lemma endpoint_loop_step net s model url rest ar le tr :
  endpoint_loop net (Some (JStr s)) model (url :: rest) ar le tr =
  let c := subnp_call url (js_trim s) model in
  match net c with
  | inl e => endpoint_loop net (Some (JStr s)) model rest ar (Some (ex_message e)) (tr ++ [c])%list
  | inr resp =>
      if orb (ok resp) (negb (Z.eqb (r_status resp) 404)) then ((tr ++ [c])%list, inr (Some resp, le))
      else endpoint_loop net (Some (JStr s)) model rest (Some resp) (Some ("404 from " ++ url)) (tr ++ [c])%list
  end.
Proof.
  simpl. unfold try_catch, bind, fetch, ret. simpl.
  destruct (net (subnp_call url (js_trim s) model)) as [e|resp]; [reflexivity|].
  destruct (ok resp); simpl; [reflexivity|].
  destruct (negb _); reflexivity.
Qed.

(** [generateImage] up to the loop, for a body with a non-empty string prompt. *)
Lemma generateImage_loop (JSON_parse : JsonParser) net req body s m0 tr :
  JSON_parse (body_text req) = Some body ->
  get_prop body "prompt" = inr (Some (JStr s)) ->
  str_truthy s = true ->
  get_prop body "model" = inr m0 ->
  generateImage JSON_parse net req tr =
  let model := match m0 with None => JStr "turbo" | Some m => m end in
  let (tr1, r) := endpoint_loop net (Some (JStr s)) model apiUrls None None tr in
  match r with
  | inl e => (tr1, inr (unknown_error_response e))
  | inr (apiResponse, lastError) =>
      try_catch
        (match apiResponse with
         | Some r => if ok r then stream_response JSON_parse r else endpoint_failure apiResponse lastError
         | None => endpoint_failure apiResponse lastError
         end)
        (fun error => ret (unknown_error_response error)) tr1
  end.
Proof.
  intros Hb Hp Hs Hm.
  unfold generateImage, request_json. rewrite Hb.
  cbv beta iota zeta delta [try_catch bind ret lift]. rewrite Hp, Hm.
  cbv beta iota zeta delta [truthy]. unfold str_truthy in Hs. rewrite Hs.
  cbv beta iota zeta delta [negb].
  destruct (endpoint_loop net (Some (JStr s)) _ apiUrls None None tr) as [tr1 [e|[ar le]]];
    reflexivity.
Qed.

End EndpointFacts.

(** C5: [generateImage] tries the fixed list [apiUrls] in order.  A response
    from an endpoint ends the loop unless its status is 404, which moves on to
    the next endpoint.  So when the first endpoint answers with a non-ok,
    non-404 status (500, say) the second is never called and the result is
    the failure envelope for that response; when the first answers 404 and
    the second answers ok, the result is the stream of the second. *)
Theorem generateImage_endpoint_order (JSON_parse : JsonParser)
  (net : call -> sum exn fetch_response) (req : request) (body : json) (s : string)
  (m0 : option json) (rA rB : fetch_response) (tr : list call)
  (Hbody : JSON_parse (body_text req) = Some body)
  (Hprompt : get_prop body "prompt" = inr (Some (JStr s)))
  (Hs : str_truthy s = true)
  (Hmodel : get_prop body "model" = inr m0) :
  let model := match m0 with None => JStr "turbo" | Some m => m end in
  let cA := subnp_call "https://t2i.mcpcore.xyz/api/free/generate" (js_trim s) model in
  let cB := subnp_call "https://subnp.com/api/free/generate" (js_trim s) model in
  apiUrls = ["https://t2i.mcpcore.xyz/api/free/generate"; "https://subnp.com/api/free/generate"] /\
  (forall url rest ar le tr' resp,
     net (subnp_call url (js_trim s) model) = inr resp ->
     (ok resp = true \/ r_status resp <> 404%Z) ->
     endpoint_loop net (Some (JStr s)) model (url :: rest) ar le tr' =
     ((tr' ++ [subnp_call url (js_trim s) model])%list, inr (Some resp, le))) /\
  (forall url rest ar le tr' resp,
     net (subnp_call url (js_trim s) model) = inr resp ->
     r_status resp = 404%Z ->
     endpoint_loop net (Some (JStr s)) model (url :: rest) ar le tr' =
     endpoint_loop net (Some (JStr s)) model rest (Some resp) (Some ("404 from " ++ url))
       (tr' ++ [subnp_call url (js_trim s) model])%list) /\
  (net cA = inr rA -> ok rA = false -> r_status rA <> 404%Z ->
     fst (generateImage JSON_parse net req tr) = (tr ++ [cA])%list /\
     generateImage JSON_parse net req tr =
     try_catch (endpoint_failure (Some rA) None) (fun error => ret (unknown_error_response error))
       (tr ++ [cA])%list) /\
  (net cA = inr rA -> r_status rA = 404%Z -> net cB = inr rB -> ok rB = true ->
     generateImage JSON_parse net req tr =
     try_catch (stream_response JSON_parse rB) (fun error => ret (unknown_error_response error))
       (tr ++ [cA; cB])%list).
Proof.
  intros model cA cB.
  assert (Hstep1 : forall url rest ar le tr' resp,
     net (subnp_call url (js_trim s) model) = inr resp ->
     (ok resp = true \/ r_status resp <> 404%Z) ->
     endpoint_loop net (Some (JStr s)) model (url :: rest) ar le tr' =
     ((tr' ++ [subnp_call url (js_trim s) model])%list, inr (Some resp, le))).
  { intros url rest ar le tr' resp Hn Hr. rewrite EndpointFacts.endpoint_loop_step. cbv zeta.
    rewrite Hn. destruct Hr as [Hr|Hr]; [rewrite Hr; reflexivity|].
    apply Z.eqb_neq in Hr. rewrite Hr, orb_true_r. reflexivity. }
  assert (Hstep2 : forall url rest ar le tr' resp,
     net (subnp_call url (js_trim s) model) = inr resp ->
     r_status resp = 404%Z ->
     endpoint_loop net (Some (JStr s)) model (url :: rest) ar le tr' =
     endpoint_loop net (Some (JStr s)) model rest (Some resp) (Some ("404 from " ++ url))
       (tr' ++ [subnp_call url (js_trim s) model])%list).
  { intros url rest ar le tr' resp Hn Hr. rewrite EndpointFacts.endpoint_loop_step. cbv zeta.
    rewrite Hn. unfold ok. rewrite Hr. reflexivity. }
  split; [reflexivity|]. split; [exact Hstep1|]. split; [exact Hstep2|]. split.
  - intros HA Hok H404.
    assert (E : generateImage JSON_parse net req tr =
      try_catch (endpoint_failure (Some rA) None) (fun error => ret (unknown_error_response error))
        (tr ++ [cA])%list).
    { rewrite (EndpointFacts.generateImage_loop _ _ _ _ _ _ _ Hbody Hprompt Hs Hmodel).
      fold model. unfold apiUrls. rewrite (Hstep1 _ _ _ _ _ _ HA (or_intror H404)).
      rewrite Hok. reflexivity. }
    split; [|exact E]. rewrite E. unfold try_catch, endpoint_failure, resp_text, bind, ret, throw.
    destruct (r_stream_error rA); reflexivity.
  - intros HA H404 HB Hok.
    rewrite (EndpointFacts.generateImage_loop _ _ _ _ _ _ _ Hbody Hprompt Hs Hmodel).
    fold model. unfold apiUrls. rewrite (Hstep2 _ _ _ _ _ _ HA H404).
    rewrite (Hstep1 _ _ _ _ _ _ HB (or_introl Hok)). rewrite Hok.
    rewrite <- app_assoc. reflexivity.
Qed.

(** C10: an endpoint whose call throws (no response at all) moves the loop
    on to the next endpoint, where a non-404 failure status would stop it.
    When both calls throw (a rejected [fetch] carries a message, e.g.
    [Network connection lost]), [generateImage] makes exactly these two calls
    and returns the failure envelope with status [Connection failed], the
    last thrown error's message as details, and the tried endpoints
    [apiUrls]. *)
Theorem generateImage_all_endpoints_throw (JSON_parse : JsonParser)
  (net : call -> sum exn fetch_response) (req : request) (body : json) (s : string)
  (m0 : option json) (eA eB : exn) (tr : list call)
  (Hbody : JSON_parse (body_text req) = Some body)
  (Hprompt : get_prop body "prompt" = inr (Some (JStr s)))
  (Hs : str_truthy s = true)
  (Hmodel : get_prop body "model" = inr m0) :
  let model := match m0 with None => JStr "turbo" | Some m => m end in
  let cA := subnp_call "https://t2i.mcpcore.xyz/api/free/generate" (js_trim s) model in
  let cB := subnp_call "https://subnp.com/api/free/generate" (js_trim s) model in
  (forall url rest ar le tr' e,
     net (subnp_call url (js_trim s) model) = inl e ->
     endpoint_loop net (Some (JStr s)) model (url :: rest) ar le tr' =
     endpoint_loop net (Some (JStr s)) model rest ar (Some (ex_message e))
       (tr' ++ [subnp_call url (js_trim s) model])%list) /\
  (forall r, net (subnp_call "https://t2i.mcpcore.xyz/api/free/generate" (js_trim s) model) = inr r ->
     ok r = false -> r_status r <> 404%Z ->
     endpoint_loop net (Some (JStr s)) model apiUrls None None tr =
     ((tr ++ [cA])%list, inr (Some r, None))) /\
  (net cA = inl eA -> net cB = inl eB -> str_truthy (ex_message eB) = true ->
     generateImage JSON_parse net req tr =
     ((tr ++ [cA; cB])%list,
      inr (json_response 200 (JObj [
        ("error", JStr "SubNP API error: Connection failed");
        ("details", JStr (ex_message eB));
        ("debug", JObj [("status", JStr "Connection failed"); ("errorText", JStr (ex_message eB));
                        ("triedEndpoints", JArr (map JStr apiUrls));
                        ("suggestion", JStr "SubNP may require an API key. Visit https://www.subnp.com/free-api to get one.")])])))).
Proof.
  intros model cA cB.
  assert (Hstep : forall url rest ar le tr' e,
     net (subnp_call url (js_trim s) model) = inl e ->
     endpoint_loop net (Some (JStr s)) model (url :: rest) ar le tr' =
     endpoint_loop net (Some (JStr s)) model rest ar (Some (ex_message e))
       (tr' ++ [subnp_call url (js_trim s) model])%list).
  { intros url rest ar le tr' e Hn. rewrite EndpointFacts.endpoint_loop_step. cbv zeta.
    rewrite Hn. reflexivity. }
  split; [exact Hstep|split].
  - intros r Hr Hok H404. unfold apiUrls. rewrite EndpointFacts.endpoint_loop_step. cbv zeta.
    rewrite Hr, Hok. apply Z.eqb_neq in H404. rewrite H404. reflexivity.
  - intros HA HB Hm.
    rewrite (EndpointFacts.generateImage_loop _ _ _ _ _ _ _ Hbody Hprompt Hs Hmodel).
    fold model. unfold apiUrls. rewrite (Hstep _ _ _ _ _ _ HA), (Hstep _ _ _ _ _ _ HB).
    cbv beta iota zeta delta [endpoint_loop ret endpoint_failure bind failure_status msg_or try_catch].
    rewrite Hm, <- app_assoc. reflexivity.
Qed.

(* ------------------------------------------------------------------ *)
(** ** Prompts and image references: proofs *)

Module TraceFacts.

Lemma stream_response_trace (JSON_parse : JsonParser) r tr : fst (stream_response JSON_parse r tr) = tr.
Proof.
  unfold stream_response, throw, ret.
  destruct (r_body r); [|reflexivity]. destruct (r_stream_error r); [reflexivity|].
  destruct (sse_result _); reflexivity.
Qed.

Lemma endpoint_failure_trace ar le tr : fst (endpoint_failure ar le tr) = tr.
Proof.
  unfold endpoint_failure, resp_text, bind, ret, throw.
  destruct ar as [r|]; [|reflexivity]. destruct (r_stream_error r); reflexivity.
Qed.

Lemma endpoint_loop_trace net s model urls : forall ar le tr,
  exists rest, fst (endpoint_loop net (Some (JStr s)) model urls ar le tr) = (tr ++ rest)%list.
Proof.
  induction urls as [|url urls IH]; intros ar le tr.
  - exists []. now rewrite app_nil_r.
  - rewrite EndpointFacts.endpoint_loop_step. cbv zeta.
    destruct (net (subnp_call url (js_trim s) model)) as [e|resp].
    + destruct (IH ar (Some (ex_message e)) (tr ++ [subnp_call url (js_trim s) model])%list)
        as [rest E]. rewrite E, <- app_assoc. eexists; reflexivity.
    + destruct (orb (ok resp) (negb (Z.eqb (r_status resp) 404))).
      * eexists; reflexivity.
      * destruct (IH (Some resp) (Some ("404 from " ++ url)) (tr ++ [subnp_call url (js_trim s) model])%list)
          as [rest E]. rewrite E, <- app_assoc. eexists; reflexivity.
Qed.

(** The [inr] results of [image_data_url]: the inline text under a PNG
    [data:] prefix, or the encoded body of the ok answer to the GET of the
    URL. *)
Lemma Mprop_image_data_url_data net d :
  Mprop (fun x => match x with
                  | inl h => forall st u rest,
                               h = HttpResponse st (BJson (JObj (("imageUrl", JStr u) :: rest))) -> False
                  | inr u =>
                      (String.prefix "http://" d = false /\ String.prefix "https://" d = false /\
                       u = "data:image/png;base64," ++ d) \/
                      (exists r, orb (String.prefix "http://" d) (String.prefix "https://" d) = true /\
                         net (Call d "GET" None) = inr r /\ ok r = true /\ r_stream_error r = None /\
                         u = "data:" ++ content_type_or_png r ++ ";base64," ++
                             encode_bytes (list_ascii_of_string (concat_text (body_chunks r))))
                  end)
        (image_data_url net d).
Proof.
  intro tr. unfold image_data_url.
  destruct (orb (String.prefix "http://" d) (String.prefix "https://" d)) eqn:Hp.
  - cbv beta iota zeta delta [try_catch bind fetch resp_bytes resp_text ret throw negb].
    destruct (net (Call d "GET" None)) as [e|r] eqn:Hn; [intros ? ? ? E; discriminate E|].
    destruct (ok r) eqn:Hok; [|intros ? ? ? E; discriminate E].
    destruct (r_stream_error r) eqn:He; [intros ? ? ? E; discriminate E|].
    right. exists r. repeat split; assumption.
  - apply orb_false_iff in Hp as [H1 H2]. left. repeat split; assumption.
Qed.

End TraceFacts.

(** C3 (corrected): in [index.js], the only envelope of [checkStatus]
    carrying an [imageUrl] (its success envelope) carries a
    [data:<mime>;base64,<text>] reference: an inline [img] (not an
    [http(s)] URL) prefixed with [data:image/png;base64,], or, for a URL,
    the base64 encoding of the body of the ok answer to its GET, under that
    answer's content type.  The SubNP variants do not normalise: the success
    envelope of [part_000] carries the [imageUrl] the stream reported,
    unchanged, and so does the success body [{ imageUrl }] of the CORS
    proxy [part_001]. *)
Theorem success_image_reference (JSON_parse : JsonParser)
  (net : call -> sum exn fetch_response) :
  (forall rid tr st u rest,
     snd (checkStatus JSON_parse net rid tr) =
       inr (HttpResponse st (BJson (JObj (("imageUrl", JStr u) :: rest)))) ->
     exists d,
     (String.prefix "http://" d = false /\ String.prefix "https://" d = false /\
      u = "data:image/png;base64," ++ d) \/
     (exists r, orb (String.prefix "http://" d) (String.prefix "https://" d) = true /\
        net (Call d "GET" None) = inr r /\ ok r = true /\ r_stream_error r = None /\
        u = "data:" ++ content_type_or_png r ++ ";base64," ++
            encode_bytes (list_ascii_of_string (concat_text (body_chunks r))))) /\
  (forall r chunks u tr,
     r_body r = Some chunks -> r_stream_error r = None ->
     decode_stream JSON_parse chunks = SseImage u ->
     stream_response JSON_parse r tr =
     (tr, inr (json_response_default (JObj [("imageUrl", u); ("provider", JStr "subnp");
                                            ("status", JStr "completed");
                                            ("version", JStr "2025-01-11-subnp")])))) /\
  (forall r chunks u tr,
     r_body r = Some chunks -> r_stream_error r = None ->
     decode_stream_proxy JSON_parse chunks = SseImage u ->
     proxy_stream_response JSON_parse r tr =
     (tr, inr (json_response_default (JObj [("imageUrl", u)])))).
Proof.
  split; [|split].
  - intros rid tr st u rest.
    assert (H : Mprop (fun resp => forall st u rest,
                         resp = HttpResponse st (BJson (JObj (("imageUrl", JStr u) :: rest))) ->
                         exists d,
                         (String.prefix "http://" d = false /\ String.prefix "https://" d = false /\
                          u = "data:image/png;base64," ++ d) \/
                         (exists r, orb (String.prefix "http://" d) (String.prefix "https://" d) = true /\
                            net (Call d "GET" None) = inr r /\ ok r = true /\ r_stream_error r = None /\
                            u = "data:" ++ content_type_or_png r ++ ";base64," ++
                                encode_bytes (list_ascii_of_string (concat_text (body_chunks r)))))
                      (checkStatus JSON_parse net rid)).
    { unfold checkStatus.
      apply Mprop_try; [|intro; apply Mprop_ret; intros ? ? ? E; discriminate E].
      unfold resp_json, resp_text, lift.
      repeat first
        [ apply (Mprop_bind_with _ _ _ _ (TraceFacts.Mprop_image_data_url_data net _)); intros ? ?
        | apply Mprop_bind; intro
        | apply Mprop_throw
        | match goal with
          | |- Mprop _ (match ?x with _ => _ end) => destruct x eqn:?
          | |- Mprop _ (if ?b then _ else _) => destruct b eqn:?
          | |- Mprop _ (let _ := _ in _) => cbv zeta
          end ];
        apply Mprop_ret; intros ? ? ? E; try discriminate E.
      - exfalso. exact (H _ _ _ E).
      - injection E; intros; subst. eexists. eassumption. }
    specialize (H tr). intro E. rewrite E in H. exact (H st u rest eq_refl).
  - intros r chunks u tr Hb He Hd. unfold decode_stream in Hd.
    unfold stream_response. rewrite Hb, He, Hd. reflexivity.
  - intros r chunks u tr Hb He Hd. unfold decode_stream_proxy in Hd.
    unfold proxy_stream_response. rewrite Hb, He, Hd. reflexivity.
Qed.

(** C9: in [checkStatus], an [img] that does not start with [http://] or
    [https://] becomes [data:image/png;base64,] followed by the text itself,
    whatever the image's format; a remote [img] that is fetched with an ok
    status becomes [data:<content type>;base64,<encoded body>], the content
    type being [image/png] when the header is absent or empty. *)
Theorem image_data_url_mime (net : call -> sum exn fetch_response) (d : string) (tr : list call) :
  (String.prefix "http://" d = false -> String.prefix "https://" d = false ->
     image_data_url net d tr = (tr, inr (inr ("data:image/png;base64," ++ d)))) /\
  (forall r,
     orb (String.prefix "http://" d) (String.prefix "https://" d) = true ->
     net (Call d "GET" None) = inr r -> ok r = true -> r_stream_error r = None ->
     image_data_url net d tr =
     ((tr ++ [Call d "GET" None])%list,
      inr (inr ("data:" ++ content_type_or_png r ++ ";base64," ++
                encode_bytes (list_ascii_of_string (concat_text (body_chunks r))))))) /\
  (forall r, (r_content_type r = None \/ r_content_type r = Some EmptyString) ->
     content_type_or_png r = "image/png").
Proof.
  split; [|split].
  - intros H1 H2. unfold image_data_url. rewrite H1, H2. reflexivity.
  - intros r Hp Hn Hok He. unfold image_data_url. rewrite Hp.
    unfold try_catch, bind, fetch, ret. rewrite Hn, Hok. simpl.
    unfold resp_bytes, resp_text, bind, ret. rewrite He. reflexivity.
  - intros r [H|H]; unfold content_type_or_png; rewrite H; reflexivity.
Qed.

(** C4 (as the code behaves): a falsy prompt gets [Prompt is required] with no
    outbound call, but the check reads the prompt before trimming it.  A
    non-empty string prompt is trimmed and sent: [submitRequest] makes the
    one call to the AI Horde with the trimmed text, and [generateImage]'s
    first call sends the trimmed text to the first endpoint; a prompt of
    white space only is therefore sent as the empty text. *)
Theorem submit_prompt_checked_before_trim (JSON_parse : JsonParser)
  (net : call -> sum exn fetch_response) (req : request) (body : json) (tr : list call)
  (Hbody : JSON_parse (body_text req) = Some body) :
  (forall p, get_prop body "prompt" = inr p -> truthy p = false ->
     submitRequest JSON_parse net req tr = (tr, inr (json_response 200 prompt_required)) /\
     (forall m0, get_prop body "model" = inr m0 ->
        generateImage JSON_parse net req tr = (tr, inr (json_response 200 prompt_required)))) /\
  (forall s, get_prop body "prompt" = inr (Some (JStr s)) -> str_truthy s = true ->
     fst (submitRequest JSON_parse net req tr) =
       (tr ++ [Call horde_submit_url "POST" (Some (horde_submit_body (js_trim s)))])%list /\
     (forall m0, get_prop body "model" = inr m0 ->
        exists rest, fst (generateImage JSON_parse net req tr) =
          (tr ++ subnp_call endpoint_A (js_trim s)
                   (match m0 with None => JStr "turbo" | Some m => m end) :: rest)%list)).
Proof.
  split.
  - intros p Hp Hf. split.
    + unfold submitRequest, request_json. rewrite Hbody.
      cbv beta iota zeta delta [try_catch bind ret lift]. rewrite Hp, Hf. reflexivity.
    + intros m0 Hm. unfold generateImage, request_json. rewrite Hbody.
      cbv beta iota zeta delta [try_catch bind ret lift]. rewrite Hp, Hm, Hf. reflexivity.
  - intros s Hp Hs. split.
    + unfold submitRequest, request_json. rewrite Hbody.
      cbv beta iota zeta delta [try_catch bind ret lift]. rewrite Hp.
      cbv beta iota zeta delta [truthy]. unfold str_truthy in Hs. rewrite Hs.
      cbv beta iota zeta delta [negb trim_value fetch throw].
      destruct (net _) as [e|resp]; [reflexivity|].
      unfold resp_json, resp_text, bind, ret, throw.
      repeat first
        [ reflexivity
        | match goal with
          | |- context [match ?x with _ => _ end] =>
              lazymatch type of x with
              | prod _ _ => fail
              | _ => destruct x
              end
          end
        | progress simpl ].
    + intros m0 Hm.
      rewrite (EndpointFacts.generateImage_loop _ _ _ _ _ _ _ Hbody Hp Hs Hm).
      cbv zeta. unfold apiUrls. rewrite EndpointFacts.endpoint_loop_step. cbv zeta.
      set (m := match m0 with None => JStr "turbo" | Some m => m end).
      set (c := subnp_call "https://t2i.mcpcore.xyz/api/free/generate" (js_trim s) m).
      assert (K : forall ar le,
        exists rest, fst (let (tr1, r) := endpoint_loop net (Some (JStr s)) m
                        ["https://subnp.com/api/free/generate"] ar le (tr ++ [c])%list in
                   match r with
                   | inl e => (tr1, inr (unknown_error_response e))
                   | inr (apiResponse, lastError) =>
                       try_catch
                         (match apiResponse with
                          | Some r => if ok r then stream_response JSON_parse r
                                      else endpoint_failure apiResponse lastError
                          | None => endpoint_failure apiResponse lastError
                          end)
                         (fun error => ret (unknown_error_response error)) tr1
                   end) = (tr ++ c :: rest)%list).
      { intros ar le.
        destruct (TraceFacts.endpoint_loop_trace net s m ["https://subnp.com/api/free/generate"]
                    ar le (tr ++ [c])%list) as [rest E].
        destruct (endpoint_loop net (Some (JStr s)) m _ ar le (tr ++ [c])%list) as [tr1 [e|[ar' le']]].
        - simpl in E. exists rest. simpl. rewrite E, <- app_assoc. reflexivity.
        - simpl in E. exists rest. unfold try_catch.
          assert (F : fst (match ar' with
                           | Some r => if ok r then stream_response JSON_parse r
                                       else endpoint_failure ar' le'
                           | None => endpoint_failure ar' le'
                           end tr1) = tr1).
          { destruct ar' as [r|]; [destruct (ok r)|];
              auto using TraceFacts.stream_response_trace, TraceFacts.endpoint_failure_trace. }
          destruct (match ar' with
                    | Some r => if ok r then stream_response JSON_parse r else endpoint_failure ar' le'
                    | None => endpoint_failure ar' le'
                    end tr1) as [tr2 [e|a]] eqn:Eq; simpl in F; subst tr2.
          + unfold ret. simpl. rewrite E, <- app_assoc. reflexivity.
          + simpl. rewrite E, <- app_assoc. reflexivity. }
      destruct (net c) as [e|resp]; [apply K|].
      destruct (orb (ok resp) (negb (Z.eqb (r_status resp) 404))); [|apply K].
      exists []. unfold try_catch.
      destruct resp as [st ct b se]. simpl.
      destruct (ok _);
        [ pose proof (TraceFacts.stream_response_trace JSON_parse (FetchResponse st ct b se) (tr ++ [c])%list) as F
        | pose proof (TraceFacts.endpoint_failure_trace (Some (FetchResponse st ct b se)) None (tr ++ [c])%list) as F ];
        match goal with |- fst (match ?x with _ => _ end) = _ => destruct x as [tr2 [e|a]] end;
        simpl in F; subst; reflexivity.
Qed.

(* ------------------------------------------------------------------ *)
(** ** Further behaviour of the three Workers *)

(** Run a computation of the monad, rewriting with the hypotheses that
    name what the parser and the network return. *)
Ltac crunch :=
  repeat progress (
    cbv beta iota zeta delta [try_catch bind ret lift throw fetch request_json resp_text
                              resp_json resp_bytes trim_value negb
                              as_string];
    try match goal with H : ?a = _ |- context [?a] => rewrite H end).

Module HordeFacts.

Lemma truthy_str (s : string) : str_truthy s = true -> truthy (Some (JStr s)) = true.
Proof. exact (fun H => H). Qed.

End HordeFacts.

(** [submitRequest] (src/index.js): when the AI Horde answers the
    submission with a non-ok status, the envelope reports that status and
    the response text; exactly the one submission call is made. *)
Theorem submitRequest_backend_error (JSON_parse : JsonParser)
  (net : call -> sum exn fetch_response) (req : request) (body : json) (s : string)
  (r : fetch_response) (tr : list call)
  (Hbody : JSON_parse (body_text req) = Some body)
  (Hp : get_prop body "prompt" = inr (Some (JStr s)))
  (Hs : str_truthy s = true)
  (Hn : net (Call horde_submit_url "POST" (Some (horde_submit_body (js_trim s)))) = inr r)
  (Hok : ok r = false) (He : r_stream_error r = None) :
  submitRequest JSON_parse net req tr =
  ((tr ++ [Call horde_submit_url "POST" (Some (horde_submit_body (js_trim s)))])%list,
   inr (json_response 200 (JObj [
     ("error", JStr ("AI Horde submission failed: " ++ Z_to_string (r_status r)));
     ("details", JStr (concat_text (body_chunks r)))]))).
Proof.
  apply HordeFacts.truthy_str in Hs. unfold submitRequest. crunch. reflexivity.
Qed.

(** [submitRequest] (src/index.js): after an ok submission, a truthy [id]
    in the AI Horde's JSON answer is returned as [requestId] with status
    [submitted]; a missing or falsy [id] gives the error envelope whose
    details are the answer re-serialised; an answer that is not JSON is
    caught and reported with the [SyntaxError] the parser throws on it. *)
Theorem submitRequest_submission_answer (JSON_parse : JsonParser)
  (net : call -> sum exn fetch_response) (req : request) (body : json) (s : string)
  (r : fetch_response) (tr : list call)
  (Hbody : JSON_parse (body_text req) = Some body)
  (Hp : get_prop body "prompt" = inr (Some (JStr s)))
  (Hs : str_truthy s = true)
  (Hn : net (Call horde_submit_url "POST" (Some (horde_submit_body (js_trim s)))) = inr r)
  (Hok : ok r = true) (He : r_stream_error r = None) :
  let trace := (tr ++ [Call horde_submit_url "POST" (Some (horde_submit_body (js_trim s)))])%list in
  (forall data id, JSON_parse (concat_text (body_chunks r)) = Some data ->
     get_prop data "id" = inr (Some id) -> truthy (Some id) = true ->
     submitRequest JSON_parse net req tr =
     (trace, inr (json_response_default (JObj [
        ("requestId", id); ("status", JStr "submitted"); ("provider", JStr "aihorde");
        ("message", JStr "Request submitted. Polling for result...")])))) /\
  (forall data id, JSON_parse (concat_text (body_chunks r)) = Some data ->
     get_prop data "id" = inr id -> truthy id = false ->
     submitRequest JSON_parse net req tr =
     (trace, inr (json_response 200 (JObj [
        ("error", JStr "No request ID returned from AI Horde");
        ("details", JStr (json_stringify data))])))) /\
  (JSON_parse (concat_text (body_chunks r)) = None ->
     submitRequest JSON_parse net req tr =
     (trace, inr (submit_error_response
                   (SyntaxError (syntax_error_message JSON_parse (concat_text (body_chunks r))))))).
Proof.
  apply HordeFacts.truthy_str in Hs. intro trace.
  split; [|split]; intros; unfold submitRequest; crunch; reflexivity.
Qed.

(** The three POST handlers on a body that is not JSON: [submitRequest] and
    [generateImage] answer 200 with [Invalid JSON in request body] and the
    [SyntaxError]'s message, the proxy answers 500 with that message; none
    of them makes an outbound call. *)
Theorem invalid_json_body (JSON_parse : JsonParser)
  (net : call -> sum exn fetch_response) (req : request) (tr : list call)
  (Hbody : JSON_parse (body_text req) = None) :
  let e := SyntaxError (syntax_error_message JSON_parse (body_text req)) in
  submitRequest JSON_parse net req tr = (tr, inr (invalid_json_response e)) /\
  generateImage JSON_parse net req tr = (tr, inr (invalid_json_response e)) /\
  proxy_post JSON_parse net req tr =
    (tr, inr (proxy_json 500 (JObj [("error", JStr (syntax_error_message JSON_parse (body_text req)))]))).
Proof.
  intro e. split; [|split]; [unfold submitRequest|unfold generateImage|unfold proxy_post]; crunch; reflexivity.
Qed.

(** A prompt that is truthy but not a string (a number, say): in
    [submitRequest] the [prompt.trim()] call throws before any outbound call
    and the catch reports the [TypeError]; in [generateImage] the call throws
    inside the endpoint loop, so every endpoint is skipped without a call and
    the envelope reports [Connection failed] with that message. *)
Theorem non_string_prompt (JSON_parse : JsonParser)
  (net : call -> sum exn fetch_response) (req : request) (body : json) (p : json)
  (m0 : option json) (tr : list call)
  (Hbody : JSON_parse (body_text req) = Some body)
  (Hp : get_prop body "prompt" = inr (Some p))
  (Hm : get_prop body "model" = inr m0)
  (Htruthy : truthy (Some p) = true)
  (Hstr : forall s, p <> JStr s) :
  submitRequest JSON_parse net req tr =
    (tr, inr (submit_error_response (TypeError "prompt.trim is not a function"))) /\
  generateImage JSON_parse net req tr =
    (tr, inr (json_response 200 (JObj [
       ("error", JStr "SubNP API error: Connection failed");
       ("details", JStr "prompt.trim is not a function");
       ("debug", JObj [("status", JStr "Connection failed");
                       ("errorText", JStr "prompt.trim is not a function");
                       ("triedEndpoints", JArr (map JStr apiUrls));
                       ("suggestion", JStr "SubNP may require an API key. Visit https://www.subnp.com/free-api to get one.")])]))).
Proof.
  destruct p as [|b|n|s|xs|kvs];
    try (exfalso; exact (Hstr _ eq_refl));
    (split; [unfold submitRequest|unfold generateImage]; crunch; reflexivity).
Qed.

Module LengthFacts.

Lemma uint_zero_digits (d : Decimal.uint) :
  mantissa_nonzero (list_ascii_of_string (NilEmpty.string_of_uint d)) = false ->
  Pos.of_uint d = N0.
Proof.
  induction d; simpl; intro H; try discriminate; auto.
Qed.

(** The decimal rendering of a positive number is truthy and [> 0]. *)
Lemma pos_gt0 (p : positive) : js_gt0 (Some (JNum (Z_to_string (Zpos p)))) = true.
Proof.
  pose proof (DecimalPos.Unsigned.of_to p) as Hof.
  pose proof (DecimalPos.Unsigned.to_uint_nonnil p) as Hnn.
  simpl. destruct (Pos.to_uint p) as [|d|d|d|d|d|d|d|d|d|d]; [congruence| | | | | | | | | |];
    try reflexivity.
  simpl. destruct (mantissa_nonzero (list_ascii_of_string (NilEmpty.string_of_uint d))) eqn:E;
    [reflexivity|]. apply uint_zero_digits in E. simpl in Hof. congruence.
Qed.

(** [generations.length > 0] holds for a non-empty array. *)
Lemma length_gt0 (x : json) (xs : list json) :
  js_gt0 (Some (JNum (Z_to_string (Z.of_nat (List.length (x :: xs)))))) = true.
Proof. exact (pos_gt0 _). Qed.

Lemma array_length (x : json) (xs : list json) :
  get_member (Some (JArr (x :: xs))) "length" =
  inr (Some (JNum (Z_to_string (Z.of_nat (List.length (x :: xs)))))).
Proof. reflexivity. Qed.

Lemma array_first (x : json) (xs : list json) :
  get_member (Some (JArr (x :: xs))) "0" = inr (Some x).
Proof. reflexivity. Qed.

Lemma array_truthy (xs : list json) : truthy (Some (JArr xs)) = true.
Proof. reflexivity. Qed.

End LengthFacts.

(** [checkStatus] (src/index.js): when the status check answers with a
    non-ok status, the envelope reports that status and nothing else is
    fetched. *)
Theorem checkStatus_check_failed (JSON_parse : JsonParser)
  (net : call -> sum exn fetch_response) (rid : string) (r : fetch_response) (tr : list call)
  (Hn : net (Call (horde_check_url rid) "GET" None) = inr r) (Hok : ok r = false) :
  checkStatus JSON_parse net rid tr =
  ((tr ++ [Call (horde_check_url rid) "GET" None])%list,
   inr (json_response 200 (JObj [
     ("error", JStr ("Failed to check status: " ++ Z_to_string (r_status r)));
     ("status", JStr "error")]))).
Proof. unfold checkStatus. crunch. reflexivity. Qed.

(** [checkStatus]: while the AI Horde reports the request as faulted, or as
    not done, only the status check is fetched (never the result).  A
    truthy [faulted] gives the [failed] envelope carrying it; otherwise a
    falsy [done] gives the [processing] envelope, whose queue position and
    wait time default to 0. *)
Theorem checkStatus_pending (JSON_parse : JsonParser)
  (net : call -> sum exn fetch_response) (rid : string) (r : fetch_response) (sd : json)
  (tr : list call)
  (Hn : net (Call (horde_check_url rid) "GET" None) = inr r) (Hok : ok r = true)
  (He : r_stream_error r = None) (Hsd : JSON_parse (concat_text (body_chunks r)) = Some sd) :
  let trace := (tr ++ [Call (horde_check_url rid) "GET" None])%list in
  (forall f, get_prop sd "faulted" = inr (Some f) -> truthy (Some f) = true ->
     checkStatus JSON_parse net rid tr =
     (trace, inr (json_response 200 (JObj [
        ("error", JStr "Image generation failed on AI Horde"); ("details", f);
        ("status", JStr "failed")])))) /\
  (forall f d qp wt, get_prop sd "faulted" = inr f -> truthy f = false ->
     get_prop sd "done" = inr d -> truthy d = false ->
     get_prop sd "queue_position" = inr qp -> get_prop sd "wait_time" = inr wt ->
     checkStatus JSON_parse net rid tr =
     (trace, inr (json_response_default (JObj [
        ("status", JStr "processing"); ("queuePosition", js_or qp (JNum "0"));
        ("waitTime", js_or wt (JNum "0")); ("done", JBool false)])))).
Proof.
  intro trace. split; intros; unfold checkStatus; crunch; reflexivity.
Qed.

(** [checkStatus]: once [done], the result is fetched second; a non-ok
    answer gives [Failed to get generation result] with its status. *)
Theorem checkStatus_result_failed (JSON_parse : JsonParser)
  (net : call -> sum exn fetch_response) (rid : string) (r r2 : fetch_response) (sd : json)
  (f d : option json) (tr : list call)
  (Hn : net (Call (horde_check_url rid) "GET" None) = inr r) (Hok : ok r = true)
  (He : r_stream_error r = None) (Hsd : JSON_parse (concat_text (body_chunks r)) = Some sd)
  (Hf : get_prop sd "faulted" = inr f) (Hft : truthy f = false)
  (Hd : get_prop sd "done" = inr d) (Hdt : truthy d = true)
  (Hn2 : net (Call (horde_status_url rid) "GET" None) = inr r2) (Hok2 : ok r2 = false) :
  checkStatus JSON_parse net rid tr =
  ((tr ++ [Call (horde_check_url rid) "GET" None; Call (horde_status_url rid) "GET" None])%list,
   inr (error_status_response "Failed to get generation result"
          ("Status: " ++ Z_to_string (r_status r2)))).
Proof.
  unfold checkStatus. crunch. rewrite <- app_assoc. reflexivity.
Qed.

(** [checkStatus]: a done result without [generations], with an empty
    [generations] array, or whose first generation has no truthy [img],
    gives [No image in generation result] with the result re-serialised. *)
Theorem checkStatus_no_image (JSON_parse : JsonParser)
  (net : call -> sum exn fetch_response) (rid : string) (r r2 : fetch_response) (sd rd : json)
  (f d gens : option json) (tr : list call)
  (Hn : net (Call (horde_check_url rid) "GET" None) = inr r) (Hok : ok r = true)
  (He : r_stream_error r = None) (Hsd : JSON_parse (concat_text (body_chunks r)) = Some sd)
  (Hf : get_prop sd "faulted" = inr f) (Hft : truthy f = false)
  (Hd : get_prop sd "done" = inr d) (Hdt : truthy d = true)
  (Hn2 : net (Call (horde_status_url rid) "GET" None) = inr r2) (Hok2 : ok r2 = true)
  (He2 : r_stream_error r2 = None) (Hrd : JSON_parse (concat_text (body_chunks r2)) = Some rd)
  (Hg : get_prop rd "generations" = inr gens)
  (Hnone : gens = None \/ gens = Some (JArr []) \/
           exists g rest im, gens = Some (JArr (g :: rest)) /\
                             get_member (Some g) "img" = inr im /\ truthy im = false) :
  checkStatus JSON_parse net rid tr =
  ((tr ++ [Call (horde_check_url rid) "GET" None; Call (horde_status_url rid) "GET" None])%list,
   inr (error_status_response "No image in generation result" (json_stringify rd))).
Proof.
  destruct Hnone as [->|[->|[g [rest [im [-> [Him Himt]]]]]]];
    [| |pose proof (LengthFacts.array_length g rest); pose proof (LengthFacts.length_gt0 g rest);
        pose proof (LengthFacts.array_first g rest); pose proof (LengthFacts.array_truthy (g :: rest))];
    unfold checkStatus; crunch; rewrite <- ?app_assoc; reflexivity.
Qed.

(** [checkStatus]: a done result whose first generation has a truthy string
    [img] that is not a URL is returned as a [data:image/png;base64,]
    reference after exactly the check and result calls; one that is an
    [http(s)] URL is fetched third and, when that fetch is ok, returned as a
    [data:] reference of the fetched content type and encoded body. *)
Theorem checkStatus_completed (JSON_parse : JsonParser)
  (net : call -> sum exn fetch_response) (rid : string) (r r2 : fetch_response) (sd rd g : json)
  (rest : list json) (f d : option json) (img : string) (tr : list call)
  (Hn : net (Call (horde_check_url rid) "GET" None) = inr r) (Hok : ok r = true)
  (He : r_stream_error r = None) (Hsd : JSON_parse (concat_text (body_chunks r)) = Some sd)
  (Hf : get_prop sd "faulted" = inr f) (Hft : truthy f = false)
  (Hd : get_prop sd "done" = inr d) (Hdt : truthy d = true)
  (Hn2 : net (Call (horde_status_url rid) "GET" None) = inr r2) (Hok2 : ok r2 = true)
  (He2 : r_stream_error r2 = None) (Hrd : JSON_parse (concat_text (body_chunks r2)) = Some rd)
  (Hg : get_prop rd "generations" = inr (Some (JArr (g :: rest))))
  (Him : get_member (Some g) "img" = inr (Some (JStr img))) (Hs : str_truthy img = true) :
  let calls := [Call (horde_check_url rid) "GET" None; Call (horde_status_url rid) "GET" None] in
  let success u := json_response_default (JObj [("imageUrl", JStr u); ("provider", JStr "aihorde");
                                                ("status", JStr "completed")]) in
  (String.prefix "http://" img = false -> String.prefix "https://" img = false ->
     checkStatus JSON_parse net rid tr =
     ((tr ++ calls)%list, inr (success ("data:image/png;base64," ++ img)))) /\
  (forall r3, orb (String.prefix "http://" img) (String.prefix "https://" img) = true ->
     net (Call img "GET" None) = inr r3 -> ok r3 = true -> r_stream_error r3 = None ->
     checkStatus JSON_parse net rid tr =
     ((tr ++ calls ++ [Call img "GET" None])%list,
      inr (success ("data:" ++ content_type_or_png r3 ++ ";base64," ++
                    encode_bytes (list_ascii_of_string (concat_text (body_chunks r3))))))).
Proof.
  apply HordeFacts.truthy_str in Hs. intros calls success.
  pose proof (LengthFacts.array_length g rest); pose proof (LengthFacts.length_gt0 g rest);
  pose proof (LengthFacts.array_first g rest); pose proof (LengthFacts.array_truthy (g :: rest)).
  split.
  - intros Hh1 Hh2. unfold checkStatus, image_data_url. crunch. cbv [orb]. crunch.
    rewrite <- app_assoc. reflexivity.
  - intros r3 Hp Hn3 Hok3 He3. unfold checkStatus, image_data_url. crunch.
    rewrite <- !app_assoc. reflexivity.
Qed.

(** [image_data_url] (src/index.js): an [img] that is not an [http(s)] URL
    is taken to be base64 PNG data and wrapped without any call; a URL is
    fetched once, and a non-ok answer gives [Failed to fetch generated image]
    with its status, while a rejected fetch or a failing body read gives
    [Failed to fetch and convert image] with the error's message. *)
Theorem image_data_url_outcomes (net : call -> sum exn fetch_response) (img : string)
  (tr : list call) :
  let c := Call img "GET" None in
  (String.prefix "http://" img = false -> String.prefix "https://" img = false ->
     image_data_url net img tr = (tr, inr (inr ("data:image/png;base64," ++ img)))) /\
  (forall r, orb (String.prefix "http://" img) (String.prefix "https://" img) = true ->
     net c = inr r -> ok r = false ->
     image_data_url net img tr =
     ((tr ++ [c])%list, inr (inl (error_status_response "Failed to fetch generated image"
                                   ("HTTP " ++ Z_to_string (r_status r)))))) /\
  (forall e, orb (String.prefix "http://" img) (String.prefix "https://" img) = true ->
     (net c = inl e \/ exists r, net c = inr r /\ ok r = true /\ r_stream_error r = Some e) ->
     image_data_url net img tr =
     ((tr ++ [c])%list, inr (inl (error_status_response "Failed to fetch and convert image"
                                   (ex_message e))))).
Proof.
  intro c. split; [|split].
  - intros H1 H2. unfold image_data_url. rewrite H1, H2. reflexivity.
  - intros r Hp Hn Hok. unfold c in Hn. unfold image_data_url. rewrite Hp. crunch. reflexivity.
  - intros e Hp Hc. unfold c in Hc.
    destruct Hc as [Hn|[r [Hn [Hok He]]]]; unfold image_data_url; rewrite Hp; crunch; reflexivity.
Qed.

(** The request dispatch of the three Workers: an [OPTIONS] request gets
    the 204 preflight and any other method than [POST] gets 405, in both
    cases without an outbound call, except that src/index.js sends a [GET]
    with a non-empty [requestId] to [checkStatus]; a [POST] goes to
    [submitRequest] there even when it carries a [requestId]. *)
Theorem dispatch_without_calls (JSON_parse : JsonParser)
  (net : call -> sum exn fetch_response) (req : request) (tr : list call) :
  (method req = "OPTIONS" ->
     fetch_horde JSON_parse net req tr = (tr, inr preflight) /\
     fetch_subnp JSON_parse net req tr = (tr, inr preflight) /\
     handleRequest_proxy JSON_parse net req tr = (tr, inr preflight)) /\
  (method req <> "OPTIONS" -> method req <> "POST" ->
     fetch_subnp JSON_parse net req tr = (tr, inr method_not_allowed) /\
     handleRequest_proxy JSON_parse net req tr = (tr, inr (HttpResponse 405 (BText "Method not allowed"))) /\
     (method req <> "GET" \/ requestId_param req = None \/ requestId_param req = Some EmptyString ->
        fetch_horde JSON_parse net req tr = (tr, inr method_not_allowed))) /\
  (method req = "POST" ->
     fetch_horde JSON_parse net req tr =
     try_catch (submitRequest JSON_parse net req) (fun error => ret (worker_error_response error)) tr).
Proof.
  destruct req as [m rid b]; simpl.
  split; [|split].
  - intros ->. repeat split.
  - intros Ho Hp. apply String.eqb_neq in Ho, Hp.
    unfold fetch_subnp, handleRequest_subnp, handleRequest_proxy, fetch_horde, handleRequest_horde;
      simpl; rewrite Ho, Hp.
    split; [reflexivity|split; [reflexivity|]].
    intros [Hg|[->| ->]].
    + apply String.eqb_neq in Hg. rewrite Hg. destruct rid; reflexivity.
    + reflexivity.
    + simpl. destruct (String.eqb m "GET"); reflexivity.
  - intros ->. unfold fetch_horde, handleRequest_horde; simpl.
    destruct rid as [s|]; [|reflexivity]. destruct (str_truthy s); reflexivity.
Qed.

(** [generateImage] (src/unnamed/part_000): when both endpoints answer 404,
    both are called, in order, and the failure envelope reports the second
    answer's status and body text. *)
Theorem generateImage_both_404 (JSON_parse : JsonParser)
  (net : call -> sum exn fetch_response) (req : request) (body : json) (s : string)
  (m0 : option json) (rA rB : fetch_response) (tr : list call)
  (Hbody : JSON_parse (body_text req) = Some body)
  (Hprompt : get_prop body "prompt" = inr (Some (JStr s)))
  (Hs : str_truthy s = true)
  (Hmodel : get_prop body "model" = inr m0) :
  let model := match m0 with None => JStr "turbo" | Some m => m end in
  let cA := subnp_call "https://t2i.mcpcore.xyz/api/free/generate" (js_trim s) model in
  let cB := subnp_call "https://subnp.com/api/free/generate" (js_trim s) model in
  net cA = inr rA -> r_status rA = 404%Z -> net cB = inr rB -> r_status rB = 404%Z ->
  r_stream_error rB = None ->
  let text := concat_text (body_chunks rB) in
  generateImage JSON_parse net req tr =
  ((tr ++ [cA; cB])%list,
   inr (json_response 200 (JObj [
     ("error", JStr ("SubNP API error: " ++ "404"));
     ("details", JStr text);
     ("debug", JObj [("status", JNum "404"); ("errorText", JStr text);
                     ("triedEndpoints", JArr (map JStr apiUrls));
                     ("suggestion", JStr "SubNP may require an API key. Visit https://www.subnp.com/free-api to get one.")])]))).
Proof.
  intros model cA cB HA HA4 HB HB4 HBe text.
  assert (H404 : forall r, r_status r = 404%Z -> orb (ok r) (negb (Z.eqb (r_status r) 404)) = false)
    by (intros r0 E; unfold ok; rewrite E; reflexivity).
  rewrite (EndpointFacts.generateImage_loop JSON_parse net req body s m0 tr Hbody Hprompt Hs Hmodel).
  cbv zeta. unfold apiUrls.
  rewrite EndpointFacts.endpoint_loop_step. cbv zeta. fold model. fold cA. rewrite HA.
  rewrite (H404 rA HA4).
  rewrite EndpointFacts.endpoint_loop_step. cbv zeta. fold model. fold cB. rewrite HB.
  rewrite (H404 rB HB4). cbv beta iota zeta delta [ret endpoint_loop].
  assert (HokB : ok rB = false) by (unfold ok; rewrite HB4; reflexivity). rewrite HokB.
  unfold try_catch, endpoint_failure, failure_status, resp_text, bind, ret.
  rewrite HB4, HBe. cbv beta iota zeta. rewrite <- app_assoc. reflexivity.
Qed.

Module ProxyStatus.

Lemma accepts (st : Z) :
  (300 <= st <= 599)%Z -> st <> 304%Z -> response_status_error st = None.
Proof.
  intros [H1 H2] H3. unfold response_status_error, null_body_status.
  rewrite (proj2 (Z.leb_le 200 st)) by lia. rewrite (proj2 (Z.leb_le st 599)) by lia.
  rewrite (proj2 (Z.eqb_neq st 101)) by lia. rewrite (proj2 (Z.eqb_neq st 204)) by lia.
  rewrite (proj2 (Z.eqb_neq st 205)) by lia. rewrite (proj2 (Z.eqb_neq st 304)) by lia.
  reflexivity.
Qed.

Lemma out_of_range (st : Z) :
  (st < 200 \/ 599 < st)%Z ->
  response_status_error st =
  Some (RangeError "Responses may only be constructed with status codes in the range 200 to 599, inclusive.").
Proof.
  intro H. unfold response_status_error.
  destruct (Z.leb_spec 200 st); destruct (Z.leb_spec st 599); simpl; try reflexivity; lia.
Qed.

End ProxyStatus.

(** [handleRequest] of the CORS proxy (src/unnamed/part_001): a truthy
    prompt is forwarded as received (not trimmed) in one POST to the first
    endpoint.  A non-ok answer whose status [new Response] accepts with a
    body (300-599 but 304) is passed on with that status and
    [{ error: 'API error: <status>', details: <body text> }]; for a status
    below 200 or above 599 the constructor's [RangeError], and for 304 its
    [TypeError], is caught and the answer is 500 with that error's message. *)
Theorem proxy_backend_error (JSON_parse : JsonParser)
  (net : call -> sum exn fetch_response) (req : request) (body p : json) (m0 : option json)
  (r : fetch_response) (tr : list call)
  (Hm : method req = "POST")
  (Hbody : JSON_parse (body_text req) = Some body)
  (Hprompt : get_prop body "prompt" = inr (Some p)) (Ht : truthy (Some p) = true)
  (Hmodel : get_prop body "model" = inr m0) :
  let model := match m0 with None => JStr "turbo" | Some m => m end in
  let c := Call "https://t2i.mcpcore.xyz/api/free/generate" "POST"
                (Some (JObj [("prompt", p); ("model", model)])) in
  net c = inr r -> ok r = false -> r_stream_error r = None ->
  ((300 <= r_status r <= 599)%Z -> r_status r <> 304%Z ->
   handleRequest_proxy JSON_parse net req tr =
   ((tr ++ [c])%list,
    inr (proxy_json (r_status r) (JObj [("error", JStr ("API error: " ++ Z_to_string (r_status r)));
                                        ("details", JStr (concat_text (body_chunks r)))])))) /\
  ((r_status r < 200 \/ 599 < r_status r)%Z ->
   handleRequest_proxy JSON_parse net req tr =
   ((tr ++ [c])%list,
    inr (proxy_json 500 (JObj [("error", JStr "Responses may only be constructed with status codes in the range 200 to 599, inclusive.")])))) /\
  (r_status r = 304%Z ->
   handleRequest_proxy JSON_parse net req tr =
   ((tr ++ [c])%list,
    inr (proxy_json 500 (JObj [("error", JStr "Response with null body status (101, 204, 205, or 304) cannot have a body.")])))).
Proof.
  intros model c Hn Hok He.
  unfold handleRequest_proxy. rewrite Hm. simpl.
  split; [|split].
  - intros Hr H304. pose proof (ProxyStatus.accepts _ Hr H304) as Hs.
    unfold proxy_post. crunch. fold model. fold c. crunch. reflexivity.
  - intros Hr. pose proof (ProxyStatus.out_of_range _ Hr) as Hs.
    unfold proxy_post. crunch. fold model. fold c. crunch. reflexivity.
  - intros H304. assert (Hs : response_status_error (r_status r) =
      Some (TypeError "Response with null body status (101, 204, 205, or 304) cannot have a body."))
      by (rewrite H304; reflexivity).
    unfold proxy_post. crunch. fold model. fold c. crunch. reflexivity.
Qed.

(* ------------------------------------------------------------------ *)
(** ** The shape of the Binary Encoder's output *)

Module Base64Shape.
Import Base64.

Lemma sextet_ok (n : N) : (n < 64)%N ->
  match char_sextet (sextet_char n) with Some _ => true | None => false end = true.
Proof. intro H. rewrite (Base64Facts.sextet_roundtrip n H). reflexivity. Qed.

Lemma all_base64_cons (c : ascii) (s : string) :
  all_base64 (String c s) =
  andb (match char_sextet c with Some _ => true | None => false end) (all_base64 s).
Proof. reflexivity. Qed.

Lemma btoa_shape (n : nat) (l : list ascii) : length l <= n ->
  exists body, btoa l = body ++ padding ((3 - length l mod 3) mod 3) /\
               all_base64 body = true /\
               String.length (btoa l) = 4 * ((length l + 2) / 3).
Proof.
  revert l; induction n as [n IH] using (well_founded_induction lt_wf); intros l Hl.
  destruct l as [|a [|b [|c rest]]].
  - exists EmptyString. repeat split.
  - pose proof (Base64Facts.byte_lt a).
    exists (String (sextet_char (byte a / 4)) (String (sextet_char ((byte a mod 4) * 16)) EmptyString)).
    split; [reflexivity|split; [|reflexivity]].
    rewrite !all_base64_cons, !sextet_ok by nlia. reflexivity.
  - pose proof (Base64Facts.byte_lt a). pose proof (Base64Facts.byte_lt b).
    exists (String (sextet_char (byte a / 4)) (String (sextet_char ((byte a mod 4) * 16 + byte b / 16))
              (String (sextet_char ((byte b mod 16) * 4)) EmptyString))).
    split; [reflexivity|split; [|reflexivity]].
    rewrite !all_base64_cons, !sextet_ok by nlia. reflexivity.
  - pose proof (Base64Facts.byte_lt a). pose proof (Base64Facts.byte_lt b).
    pose proof (Base64Facts.byte_lt c).
    simpl in Hl.
    destruct (IH (length rest) ltac:(lia) rest (le_n _)) as [body [E [Hb Hlen]]].
    exists (String (sextet_char (byte a / 4)) (String (sextet_char ((byte a mod 4) * 16 + byte b / 16))
              (String (sextet_char ((byte b mod 16) * 4 + byte c / 64))
                (String (sextet_char (byte c mod 64)) body)))).
    replace ((3 - length (a :: b :: c :: rest) mod 3) mod 3) with ((3 - length rest mod 3) mod 3)
      by (simpl length; replace (S (S (S (length rest)))) with (length rest + 1 * 3) by lia;
          rewrite Nat.Div0.mod_add; reflexivity).
    split; [simpl; rewrite E; reflexivity|split].
    + rewrite !all_base64_cons, !sextet_ok by nlia. exact Hb.
    + simpl btoa. simpl String.length. rewrite Hlen. simpl length.
      replace (S (S (S (length rest))) + 2) with (length rest + 2 + 1 * 3) by lia.
      rewrite Nat.div_add by lia. lia.
Qed.

Lemma encode_bytes_btoa (bytes : list ascii) : encode_bytes bytes = btoa bytes.
Proof.
  unfold encode_bytes.
  assert (Hc : 1 <= chunkSize) by (apply Nat.leb_le; reflexivity).
  rewrite chunk_loop_spec by nia. reflexivity.
Qed.

End Base64Shape.

(** The Binary Encoder of [checkStatus] (src/index.js) produces standard
    padded base64: characters of the 64-letter alphabet followed by the
    [(3 - n mod 3) mod 3] padding signs [=] for [n] input bytes, four
    characters for every three bytes or part of three. *)
Theorem encode_bytes_shape (bytes : list ascii) :
  exists body, encode_bytes bytes = body ++ padding ((3 - length bytes mod 3) mod 3) /\
               all_base64 body = true /\
               String.length (encode_bytes bytes) = 4 * ((length bytes + 2) / 3).
Proof.
  rewrite Base64Shape.encode_bytes_btoa. exact (Base64Shape.btoa_shape (length bytes) bytes (le_n _)).
Qed.

(* ------------------------------------------------------------------ *)
(** ** The proxy's stream decoder against the SubNP Worker's *)

Module DecoderSim.

Lemma fold_left_sim {S T} (f : S -> string -> S) (g : T -> string -> T) (R : S -> T -> Prop) :
  (forall s t l, R s t -> R (f s l) (g t l)) ->
  forall lines s t, R s t -> R (fold_left f lines s) (fold_left g lines t).
Proof. intros Hs lines. induction lines; intros s t H; simpl; auto. Qed.

Lemma read_loop_sim {S T} (f : S -> string -> S) (g : T -> string -> T) (R : S -> T -> Prop) :
  (forall s t l, R s t -> R (f s l) (g t l)) ->
  forall chunks b s t, R s t ->
  fst (read_loop f chunks b s) = fst (read_loop g chunks b t) /\
  R (snd (read_loop f chunks b s)) (snd (read_loop g chunks b t)).
Proof.
  intros Hs chunks. induction chunks as [|v rest IH]; intros b s t H; simpl; [auto|].
  destruct (pop_fragment (js_split_nl (b ++ v))) as [lines b2].
  apply IH. apply (fold_left_sim f g R Hs). exact H.
Qed.

Lemma step_related (JSON_parse : JsonParser) st p line :
  decoder_related st p -> decoder_related (process_line JSON_parse st line) (process_line_proxy JSON_parse p line).
Proof.
  destruct p as [u e]. intros [Hu He]. simpl in Hu, He.
  unfold process_line, process_line_proxy.
  destruct (String.prefix data_prefix line); [|split; assumption].
  destruct (JSON_parse (js_slice_from 6 line)) as [data|]; [|split; assumption].
  destruct (get_prop data "status") as [x|dstatus]; [split; assumption|].
  destruct (if status_is dstatus "complete" then get_prop data "imageUrl" else inr None)
    as [x|url]; [split; assumption|].
  destruct (andb (status_is dstatus "complete") (truthy url)); [split; simpl; auto|].
  destruct (status_is dstatus "error").
  - destruct (get_prop data "message") as [x|msg]; [split; assumption|].
    split; cbn [fst snd imageUrl errorMessage]; [exact Hu|].
    unfold js_or. destruct (truthy msg) eqn:T;
      [destruct msg; [left; reflexivity|discriminate T]|right; split; reflexivity].
  - destruct (status_is dstatus "processing"); split; assumption.
Qed.

Lemma outcome_related st p :
  decoder_related st p ->
  proxy_result p = sse_result st \/
  (proxy_result p = SseError (JStr "Unknown error") /\
   sse_result st = SseError (JStr "Unknown error from SubNP")).
Proof.
  destruct p as [u e]. destruct st as [u' e' s']. intros [Hu He]. simpl in Hu, He. subst u.
  destruct He as [->|[-> ->]]; [left|right]; unfold proxy_result, sse_result; simpl; auto.
Qed.

End DecoderSim.

(** The stream decoder of the CORS proxy (src/unnamed/part_001) and that of
    the SubNP Worker (src/unnamed/part_000) agree on every body: they end
    with the same [imageUrl] and the same [errorMessage], except where an
    error event without a message leaves each decoder's own fallback text
    ([Unknown error] and [Unknown error from SubNP]); so their outcomes are
    equal, or are errors with these two texts. *)
Theorem proxy_decoder_agrees (JSON_parse : JsonParser) (chunks : list string) :
  let p := snd (read_loop (process_line_proxy JSON_parse) chunks EmptyString (None, None)) in
  let st := snd (read_loop (process_line JSON_parse) chunks EmptyString sse_init) in
  (fst p = imageUrl st /\
   (snd p = errorMessage st \/
    (snd p = Some (JStr "Unknown error") /\ errorMessage st = Some (JStr "Unknown error from SubNP")))) /\
  (decode_stream_proxy JSON_parse chunks = decode_stream JSON_parse chunks \/
   (decode_stream_proxy JSON_parse chunks = SseError (JStr "Unknown error") /\
    decode_stream JSON_parse chunks = SseError (JStr "Unknown error from SubNP"))).
Proof.
  intros p st.
  assert (H : decoder_related st p).
  { apply (DecoderSim.read_loop_sim (process_line JSON_parse) (process_line_proxy JSON_parse)
             decoder_related (DecoderSim.step_related JSON_parse)).
    split; [reflexivity|left; reflexivity]. }
  split; [exact H|]. exact (DecoderSim.outcome_related st p H).
Qed.

(* ------------------------------------------------------------------ *)
(** ** Outbound calls *)

Section CallFacts.

Variable Q : call -> Prop.

Lemma Mcalls_ret {A} n (a : A) : Mcalls Q n (ret a).
Proof. intro tr. exists []. rewrite app_nil_r. repeat split; [simpl; lia|constructor]. Qed.

Lemma Mcalls_throw {A} n e : Mcalls Q n (@throw A e).
Proof. intro tr. exists []. rewrite app_nil_r. repeat split; [simpl; lia|constructor]. Qed.

Lemma Mcalls_lift {A} n (x : sum exn A) : Mcalls Q n (lift x).
Proof. destruct x; [apply Mcalls_throw|apply Mcalls_ret]. Qed.

Lemma Mcalls_le {A} n n' (m : M A) : n <= n' -> Mcalls Q n m -> Mcalls Q n' m.
Proof.
  intros Hle Hm tr. destruct (Hm tr) as [cs [E [L F]]]. exists cs. repeat split; auto. lia.
Qed.

Lemma Mcalls_bind {A B} n1 n2 (m : M A) (k : A -> M B) :
  Mcalls Q n1 m -> (forall a, Mcalls Q n2 (k a)) -> Mcalls Q (n1 + n2) (bind m k).
Proof.
  intros Hm Hk tr. destruct (Hm tr) as [cs1 [E1 [L1 F1]]]. unfold bind.
  destruct (m tr) as [tr' [e|a]]; simpl in E1; subst tr'.
  - exists cs1. repeat split; auto. lia.
  - destruct (Hk a (tr ++ cs1)%list) as [cs2 [E2 [L2 F2]]]. exists (cs1 ++ cs2)%list.
    rewrite E2, app_assoc, length_app. repeat split; [lia|]. apply Forall_app; auto.
Qed.

Lemma Mcalls_bind0 {A B} n (m : M A) (k : A -> M B) :
  Mcalls Q 0 m -> (forall a, Mcalls Q n (k a)) -> Mcalls Q n (bind m k).
Proof. exact (Mcalls_bind 0 n m k). Qed.

Lemma Mcalls_bind_sub {A B} n n1 (m : M A) (k : A -> M B) :
  Mcalls Q n1 m -> (forall a, Mcalls Q (n - n1) (k a)) -> n1 <= n -> Mcalls Q n (bind m k).
Proof.
  intros Hm Hk Hle. apply (Mcalls_le (n1 + (n - n1))); [lia|]. now apply Mcalls_bind.
Qed.

Lemma Mcalls_try {A} n1 n2 (m : M A) (h : exn -> M A) :
  Mcalls Q n1 m -> (forall e, Mcalls Q n2 (h e)) -> Mcalls Q (n1 + n2) (try_catch m h).
Proof.
  intros Hm Hh tr. destruct (Hm tr) as [cs1 [E1 [L1 F1]]]. unfold try_catch.
  destruct (m tr) as [tr' [e|a]]; simpl in E1; subst tr'.
  - destruct (Hh e (tr ++ cs1)%list) as [cs2 [E2 [L2 F2]]]. exists (cs1 ++ cs2)%list.
    rewrite E2, app_assoc, length_app. repeat split; [lia|]. apply Forall_app; auto.
  - exists cs1. repeat split; auto. lia.
Qed.

Lemma Mcalls_try_ret {A} n (m : M A) (f : exn -> A) :
  Mcalls Q n m -> Mcalls Q n (try_catch m (fun e => ret (f e))).
Proof.
  intro Hm. rewrite <- (Nat.add_0_r n). apply Mcalls_try; [exact Hm|]. intro; apply Mcalls_ret.
Qed.

Lemma Mcalls_bind_fetch {B} net n c (k : fetch_response -> M B) :
  Q c -> (forall a, Mcalls Q n (k a)) -> Mcalls Q (S n) (bind (fetch net c) k).
Proof.
  intros Hc Hk. apply (Mcalls_bind 1 n); [|exact Hk].
  intro tr. exists [c]. repeat split; [simpl; lia|]. constructor; [exact Hc|constructor].
Qed.

End CallFacts.

Lemma Mcalls_impl {A} (Q Q' : call -> Prop) n (m : M A) :
  (forall c, Q c -> Q' c) -> Mcalls Q n m -> Mcalls Q' n m.
Proof.
  intros HQ Hm tr. destruct (Hm tr) as [cs [E [L F]]]. exists cs. repeat split; auto.
  eapply Forall_impl; eauto.
Qed.

(** Walk a computation, charging each [fetch] to the call budget. *)
Ltac mcalls_walk :=
  repeat first
    [ apply Mcalls_try_ret
    | apply Mcalls_ret
    | apply Mcalls_throw
    | apply Mcalls_lift
    | apply Mcalls_bind_fetch; [|intro]
    | apply Mcalls_bind0; [solve [mcalls_walk] | intro]
    | match goal with
      | |- Mcalls _ _ (match ?x with _ => _ end) => destruct x
      | |- Mcalls _ _ (if ?b then _ else _) => destruct b
      | |- Mcalls _ _ (let (_, _) := ?p in _) => destruct p
      | |- Mcalls _ _ (let _ := _ in _) => cbv zeta
      end ].

Module CallBounds.

Lemma Mcalls_endpoint_loop net prompt model urls : forall ar le,
  (forall url p, In url urls -> subnp_post (subnp_call url p model)) ->
  Mcalls subnp_post (length urls) (endpoint_loop net prompt model urls ar le).
Proof.
  induction urls as [|url rest IH]; intros ar le Hq; simpl; [apply Mcalls_ret|].
  apply (Mcalls_bind _ 1 (length rest)).
  - apply Mcalls_try_ret. apply Mcalls_bind0; [apply Mcalls_lift|intro p].
    apply Mcalls_bind_fetch; [apply Hq; left; reflexivity|intro; apply Mcalls_ret].
  - intros [e|resp].
    + apply IH. intros; apply Hq; right; assumption.
    + destruct (ok resp); [apply Mcalls_ret|]. destruct (negb _); [apply Mcalls_ret|].
      apply IH. intros; apply Hq; right; assumption.
Qed.

Lemma Mcalls_stream_response (JSON_parse : JsonParser) Q n r : Mcalls Q n (stream_response JSON_parse r).
Proof. unfold stream_response. mcalls_walk. Qed.

Lemma Mcalls_endpoint_failure Q n ar le : Mcalls Q n (endpoint_failure ar le).
Proof. unfold endpoint_failure, resp_text. mcalls_walk. Qed.

Lemma Mcalls_generateImage (JSON_parse : JsonParser) net req :
  Mcalls subnp_post 2 (generateImage JSON_parse net req).
Proof.
  unfold generateImage, request_json. mcalls_walk.
  eapply Mcalls_bind_sub.
  - apply Mcalls_endpoint_loop. intros url p Hin. split; [exact Hin|reflexivity].
  - intros [ar le]. simpl. destruct ar as [r|];
      [destruct (ok r); [apply Mcalls_stream_response|]|]; apply Mcalls_endpoint_failure.
  - simpl. lia.
Qed.

Lemma Mcalls_image_data_url net d : Mcalls horde_get 1 (image_data_url net d).
Proof.
  unfold image_data_url, resp_bytes, resp_text. mcalls_walk. split; reflexivity.
Qed.

Lemma Mcalls_checkStatus (JSON_parse : JsonParser) net rid : Mcalls horde_get 3 (checkStatus JSON_parse net rid).
Proof.
  unfold checkStatus, resp_json, resp_text. mcalls_walk; try (split; reflexivity).
  eapply Mcalls_bind_sub; [apply Mcalls_image_data_url| |simpl; lia].
  simpl. intros [h|u]; apply Mcalls_ret.
Qed.

Lemma Mcalls_submitRequest (JSON_parse : JsonParser) net req :
  Mcalls horde_submit 1 (submitRequest JSON_parse net req).
Proof.
  unfold submitRequest, request_json, resp_json, resp_text. mcalls_walk.
  eexists; reflexivity.
Qed.

End CallBounds.

(** The outbound calls of the SubNP Worker (src/unnamed/part_000): whatever
    the request and the network's answers, it makes at most two calls, each
    a POST to one of the two [apiUrls]. *)
Theorem subnp_outbound_calls (JSON_parse : JsonParser)
  (net : call -> sum exn fetch_response) (req : request) :
  Mcalls subnp_post 2 (fetch_subnp JSON_parse net req).
Proof.
  unfold fetch_subnp, handleRequest_subnp. apply Mcalls_try_ret.
  destruct (String.eqb (method req) "OPTIONS"); [apply Mcalls_ret|].
  destruct (String.eqb (method req) "POST"); [apply CallBounds.Mcalls_generateImage|apply Mcalls_ret].
Qed.

(** The outbound calls of the AI Horde Worker (src/index.js): a submission
    makes at most one call, the POST of the generation body to the
    [async] endpoint; a status poll makes at most three, all GETs without a
    body; so a request to the Worker causes at most three calls of these two
    kinds. *)
Theorem horde_outbound_calls (JSON_parse : JsonParser)
  (net : call -> sum exn fetch_response) (req : request) (rid : string) :
  Mcalls horde_submit 1 (submitRequest JSON_parse net req) /\
  Mcalls horde_get 3 (checkStatus JSON_parse net rid) /\
  Mcalls (fun c => horde_submit c \/ horde_get c) 3 (fetch_horde JSON_parse net req).
Proof.
  split; [apply CallBounds.Mcalls_submitRequest|].
  split; [apply CallBounds.Mcalls_checkStatus|].
  assert (Hs : Mcalls (fun c => horde_submit c \/ horde_get c) 3 (submitRequest JSON_parse net req)).
  { apply (Mcalls_le _ 1); [lia|]. eapply Mcalls_impl; [|apply CallBounds.Mcalls_submitRequest].
    intros; left; assumption. }
  assert (Hc : forall r, Mcalls (fun c => horde_submit c \/ horde_get c) 3 (checkStatus JSON_parse net r)).
  { intro r. eapply Mcalls_impl; [|apply CallBounds.Mcalls_checkStatus]. intros; right; assumption. }
  unfold fetch_horde, handleRequest_horde. apply Mcalls_try_ret.
  destruct (String.eqb (method req) "OPTIONS"); [apply Mcalls_ret|].
  destruct (requestId_param req) as [r|].
  - destruct (andb _ _); [apply Hc|]. destruct (String.eqb (method req) "POST"); [exact Hs|apply Mcalls_ret].
  - destruct (String.eqb (method req) "POST"); [exact Hs|apply Mcalls_ret].
Qed.

(** The outbound calls of the CORS proxy (src/unnamed/part_001): at most one
    call, a POST to the first SubNP endpoint. *)
Theorem proxy_outbound_calls (JSON_parse : JsonParser)
  (net : call -> sum exn fetch_response) (req : request) :
  Mcalls proxy_post_call 1 (handleRequest_proxy JSON_parse net req).
Proof.
  unfold handleRequest_proxy, proxy_post, proxy_stream_response, request_json, resp_text.
  destruct (String.eqb (method req) "OPTIONS"); [apply Mcalls_ret|].
  destruct (negb _); [apply Mcalls_ret|].
  mcalls_walk. split; reflexivity.
Qed.

(* ------------------------------------------------------------------ *)
(** ** The Workers' outer error handlers *)

Module OuterCatch.

Lemma try_catch_ok {A} (m : M A) (h : exn -> M A) tr a :
  snd (m tr) = inr a -> try_catch m h tr = m tr.
Proof. unfold try_catch. destruct (m tr) as [tr' [e|a']]; simpl; congruence. Qed.

Lemma Mprop_true {A} (m : M A) : Mprop (fun _ => True) m.
Proof. intro tr. destruct (snd (m tr)); exact I. Qed.

Lemma total_proxy_post (JSON_parse : JsonParser) net req : Mtotal (fun _ => True) (proxy_post JSON_parse net req).
Proof. apply Mtotal_of_try; [apply Mprop_true|ret_total]. Qed.

Lemma total_horde (JSON_parse : JsonParser) net req tr :
  exists resp, snd (handleRequest_horde JSON_parse net req tr) = inr resp.
Proof.
  unfold handleRequest_horde.
  destruct (String.eqb (method req) "OPTIONS"); [eexists; reflexivity|].
  assert (Hs : exists resp, snd (submitRequest JSON_parse net req tr) = inr resp)
    by (destruct (Mtotal_submitRequest JSON_parse net req tr) as [a [E _]]; eauto).
  destruct (requestId_param req) as [rid|].
  - destruct (andb _ _).
    + destruct (Mtotal_checkStatus JSON_parse net rid tr) as [a [E _]]; eauto.
    + destruct (String.eqb (method req) "POST"); [exact Hs|eexists; reflexivity].
  - destruct (String.eqb (method req) "POST"); [exact Hs|eexists; reflexivity].
Qed.

Lemma total_subnp (JSON_parse : JsonParser) net req tr :
  exists resp, snd (handleRequest_subnp JSON_parse net req tr) = inr resp.
Proof.
  unfold handleRequest_subnp.
  destruct (String.eqb (method req) "OPTIONS"); [eexists; reflexivity|].
  destruct (String.eqb (method req) "POST"); [|eexists; reflexivity].
  destruct (Mtotal_generateImage JSON_parse net req tr) as [a [E _]]; eauto.
Qed.

End OuterCatch.

(** The outer [.catch] of the two ES-module Workers (src/index.js and
    src/unnamed/part_000) is never reached: [handleRequest] always resolves,
    so [fetch] returns exactly what [handleRequest] returns and the
    [Worker error] envelope is never produced.  The CORS proxy
    (src/unnamed/part_001), which has no outer [.catch], never rejects
    either. *)
Theorem handlers_never_reject (JSON_parse : JsonParser)
  (net : call -> sum exn fetch_response) (req : request) (tr : list call) :
  (exists resp, snd (handleRequest_horde JSON_parse net req tr) = inr resp) /\
  fetch_horde JSON_parse net req tr = handleRequest_horde JSON_parse net req tr /\
  (exists resp, snd (handleRequest_subnp JSON_parse net req tr) = inr resp) /\
  fetch_subnp JSON_parse net req tr = handleRequest_subnp JSON_parse net req tr /\
  (exists resp, snd (handleRequest_proxy JSON_parse net req tr) = inr resp).
Proof.
  destruct (OuterCatch.total_horde JSON_parse net req tr) as [a Ha].
  destruct (OuterCatch.total_subnp JSON_parse net req tr) as [b Hb].
  split; [eauto|]. split; [exact (OuterCatch.try_catch_ok _ _ _ _ Ha)|].
  split; [eauto|]. split; [exact (OuterCatch.try_catch_ok _ _ _ _ Hb)|].
  unfold handleRequest_proxy.
  destruct (String.eqb (method req) "OPTIONS"); [eexists; reflexivity|].
  destruct (negb _); [eexists; reflexivity|].
  destruct (OuterCatch.total_proxy_post JSON_parse net req tr) as [c [E _]]; eauto.
Qed.

(** Instances of the C7 and C8 theorems on concrete streams. *)
Lemma decode_stream_chunking_witness :
  decode_stream sample_parser ["da"; "ta: x" ++ String newline "more"] =
  decode_stream sample_parser ["data: x" ++ String newline "mo"; "re"].
Proof.
  apply (proj1 (decode_stream_chunking sample_parser ["da"; "ta: x" ++ String newline "more"]
    ["data: x" ++ String newline "mo"; "re"] eq_refl)).
Defined.

Lemma decode_stream_skips_malformed_witness :
  decode_stream sample_parser
    [substring 0 20 sample_text; substring 20 (String.length sample_text - 20) sample_text] =
  SseImage (JStr sample_url).
Proof.
  apply (proj1 (decode_stream_skips_malformed sample_parser
    ["event: message"; "data: {oops"] [": keepalive"]
    (data_prefix ++ json_stringify sample_record) sample_record
    (JStr sample_url)
    [substring 0 20 sample_text; substring 20 (String.length sample_text - 20) sample_text]
    ltac:(vm_compute; reflexivity) ltac:(vm_compute; reflexivity)
    ltac:(vm_compute; reflexivity) ltac:(vm_compute; reflexivity)
    ltac:(vm_compute; reflexivity) ltac:(vm_compute; reflexivity)
    ltac:(vm_compute; reflexivity) ltac:(vm_compute; reflexivity))).
Defined.

(** C5 on concrete backends: a 500 from the first endpoint stops the loop;
    a 404 from the first and a 200 from the second gives the second's stream. *)
Lemma generateImage_endpoint_order_witness :
  fst (generateImage sample_parser (two_endpoints 500 200) (post_request "cat") []) =
    [subnp_call endpoint_A "cat" (JStr "turbo")] /\
  generateImage sample_parser (two_endpoints 404 200) (post_request "cat") [] =
    try_catch (stream_response sample_parser (stream_reply 200))
      (fun error => ret (unknown_error_response error))
      [subnp_call endpoint_A "cat" (JStr "turbo"); subnp_call endpoint_B "cat" (JStr "turbo")].
Proof.
  split.
  - exact (proj1 (proj1 (proj2 (proj2 (proj2 (generateImage_endpoint_order sample_parser
      (two_endpoints 500 200) (post_request "cat") (JObj [("prompt", JStr "cat")]) "cat" None
      (stream_reply 500) (stream_reply 200) [] eq_refl eq_refl eq_refl eq_refl))))
      eq_refl eq_refl ltac:(discriminate))).
  - exact (proj2 (proj2 (proj2 (proj2 (generateImage_endpoint_order sample_parser
      (two_endpoints 404 200) (post_request "cat") (JObj [("prompt", JStr "cat")]) "cat" None
      (stream_reply 404) (stream_reply 200) [] eq_refl eq_refl eq_refl eq_refl))))
      eq_refl eq_refl eq_refl eq_refl).
Defined.

(** C10 on a backend that is unreachable: both endpoints are called and the
    envelope reports the network error's message. *)
Lemma generateImage_all_endpoints_throw_witness :
  generateImage sample_parser (offline (TypeError "Network connection lost")) (post_request "cat") [] =
  ([subnp_call endpoint_A "cat" (JStr "turbo"); subnp_call endpoint_B "cat" (JStr "turbo")],
   inr (json_response 200 (JObj [
     ("error", JStr "SubNP API error: Connection failed");
     ("details", JStr "Network connection lost");
     ("debug", JObj [("status", JStr "Connection failed"); ("errorText", JStr "Network connection lost");
                     ("triedEndpoints", JArr (map JStr apiUrls));
                     ("suggestion", JStr "SubNP may require an API key. Visit https://www.subnp.com/free-api to get one.")])]))).
Proof.
  exact (proj2 (proj2 (generateImage_all_endpoints_throw sample_parser
    (offline (TypeError "Network connection lost")) (post_request "cat")
    (JObj [("prompt", JStr "cat")]) "cat" None
    (TypeError "Network connection lost") (TypeError "Network connection lost") []
    eq_refl eq_refl eq_refl eq_refl)) eq_refl eq_refl eq_refl).
Defined.

(** C3 on a concrete stream: [stream_response] of [part_000] and the
    proxy's [proxy_stream_response] return the stream's [imageUrl] as it is. *)
Lemma success_image_reference_witness :
  stream_response sample_parser (stream_reply 200) [] =
  ([], inr (json_response_default (JObj [("imageUrl", JStr sample_url); ("provider", JStr "subnp");
                                         ("status", JStr "completed");
                                         ("version", JStr "2025-01-11-subnp")]))) /\
  proxy_stream_response sample_parser (stream_reply 200) [] =
  ([], inr (json_response_default (JObj [("imageUrl", JStr sample_url)]))).
Proof.
  split.
  - exact (proj1 (proj2 (success_image_reference sample_parser (offline (TypeError "unused"))))
             (stream_reply 200) _ (JStr sample_url) [] eq_refl eq_refl
             ltac:(vm_compute; reflexivity)).
  - exact (proj2 (proj2 (success_image_reference sample_parser (offline (TypeError "unused"))))
             (stream_reply 200) _ (JStr sample_url) [] eq_refl eq_refl
             ltac:(vm_compute; reflexivity)).
Defined.

(** A counterexample to C3: [part_000] answers a successful stream with the
    backend's plain [https:] URL as [imageUrl], not a [data:] reference. *)
Lemma subnp_success_plain_url :
  generateImage sample_parser (two_endpoints 200 200) (post_request "cat") [] =
  ([subnp_call endpoint_A "cat" (JStr "turbo")],
   inr (json_response_default (JObj [("imageUrl", JStr sample_url); ("provider", JStr "subnp");
                                     ("status", JStr "completed");
                                     ("version", JStr "2025-01-11-subnp")]))) /\
  String.prefix "data:" sample_url = false.
Proof. split; vm_compute; reflexivity. Qed.

(** C9 on a JPEG given inline as base64 text: it is labelled [image/png]. *)
Lemma image_data_url_mime_witness :
  image_data_url (offline (TypeError "unused")) "/9j/4AAQSkZJRg" [] =
  ([], inr (inr "data:image/png;base64,/9j/4AAQSkZJRg")).
Proof.
  exact (proj1 (image_data_url_mime (offline (TypeError "unused")) "/9j/4AAQSkZJRg" [])
           eq_refl eq_refl).
Defined.

(** C4 on the prompt ["   "]: the check passes, and the AI Horde and the
    first SubNP endpoint are sent the empty prompt. *)
Lemma submit_prompt_checked_before_trim_witness :
  fst (submitRequest sample_parser (offline (TypeError "unused")) (post_request "   ") []) =
    [Call horde_submit_url "POST" (Some (horde_submit_body EmptyString))] /\
  exists rest,
    fst (generateImage sample_parser (offline (TypeError "unused")) (post_request "   ") []) =
    subnp_call endpoint_A EmptyString (JStr "turbo") :: rest.
Proof.
  pose proof (proj2 (submit_prompt_checked_before_trim sample_parser (offline (TypeError "unused"))
    (post_request "   ") (JObj [("prompt", JStr "   ")]) [] eq_refl) "   " eq_refl eq_refl) as H.
  split; [exact (proj1 H)|exact (proj2 H None eq_refl)].
Defined.


(** Instances of the further theorems on concrete requests and networks. *)
Lemma submitRequest_backend_error_witness :
  submitRequest sample_parser (always (answer 503 "busy")) (post_request "cat") [] =
  ([Call horde_submit_url "POST" (Some (horde_submit_body "cat"))],
   inr (json_response 200 (JObj [("error", JStr "AI Horde submission failed: 503");
                                 ("details", JStr "busy")]))).
Proof.
  apply (submitRequest_backend_error sample_parser (always (answer 503 "busy")) (post_request "cat")
           (JObj [("prompt", JStr "cat")]) "cat" (answer 503 "busy") []);
    vm_compute; reflexivity.
Defined.

Lemma submitRequest_submission_answer_witness :
  submitRequest sample_parser (always (answer 200 (json_stringify (JObj [("id", JStr "r1")]))))
    (post_request "cat") [] =
  ([Call horde_submit_url "POST" (Some (horde_submit_body "cat"))],
   inr (json_response_default (JObj [
     ("requestId", JStr "r1"); ("status", JStr "submitted"); ("provider", JStr "aihorde");
     ("message", JStr "Request submitted. Polling for result...")]))).
Proof.
  apply (proj1 (submitRequest_submission_answer sample_parser
           (always (answer 200 (json_stringify (JObj [("id", JStr "r1")])))) (post_request "cat")
           (JObj [("prompt", JStr "cat")]) "cat" (answer 200 (json_stringify (JObj [("id", JStr "r1")])))
           [] ltac:(vm_compute; reflexivity) ltac:(vm_compute; reflexivity)
           ltac:(vm_compute; reflexivity) ltac:(vm_compute; reflexivity)
           ltac:(vm_compute; reflexivity) ltac:(vm_compute; reflexivity))
           (JObj [("id", JStr "r1")]) (JStr "r1"));
    vm_compute; reflexivity.
Defined.

Lemma invalid_json_body_witness :
  submitRequest sample_parser (always (answer 200 "x")) (Request "POST" None "{oops") [] =
    ([], inr (invalid_json_response (SyntaxError "Unexpected token in JSON: {oops"))) /\
  generateImage sample_parser (always (answer 200 "x")) (Request "POST" None "{oops") [] =
    ([], inr (invalid_json_response (SyntaxError "Unexpected token in JSON: {oops"))) /\
  proxy_post sample_parser (always (answer 200 "x")) (Request "POST" None "{oops") [] =
    ([], inr (proxy_json 500 (JObj [("error", JStr "Unexpected token in JSON: {oops")]))).
Proof.
  apply (invalid_json_body sample_parser (always (answer 200 "x")) (Request "POST" None "{oops") []).
  vm_compute. reflexivity.
Defined.

Lemma non_string_prompt_witness :
  submitRequest sample_parser (always (answer 200 "x"))
    (Request "POST" None (json_stringify (JObj [("prompt", JNum "5")]))) [] =
    ([], inr (submit_error_response (TypeError "prompt.trim is not a function"))) /\
  generateImage sample_parser (always (answer 200 "x"))
    (Request "POST" None (json_stringify (JObj [("prompt", JNum "5")]))) [] =
    ([], inr (json_response 200 (JObj [
       ("error", JStr "SubNP API error: Connection failed");
       ("details", JStr "prompt.trim is not a function");
       ("debug", JObj [("status", JStr "Connection failed");
                       ("errorText", JStr "prompt.trim is not a function");
                       ("triedEndpoints", JArr (map JStr apiUrls));
                       ("suggestion", JStr "SubNP may require an API key. Visit https://www.subnp.com/free-api to get one.")])]))).
Proof.
  apply (non_string_prompt sample_parser (always (answer 200 "x"))
           (Request "POST" None (json_stringify (JObj [("prompt", JNum "5")])))
           (JObj [("prompt", JNum "5")]) (JNum "5") None []);
    first [vm_compute; reflexivity | intros s E; discriminate E].
Defined.

Lemma checkStatus_check_failed_witness :
  checkStatus sample_parser (always (answer 500 "down")) "abc" [] =
  ([Call (horde_check_url "abc") "GET" None],
   inr (json_response 200 (JObj [("error", JStr "Failed to check status: 500");
                                 ("status", JStr "error")]))).
Proof.
  apply (checkStatus_check_failed sample_parser (always (answer 500 "down")) "abc" (answer 500 "down") []);
    vm_compute; reflexivity.
Defined.

Lemma checkStatus_pending_witness :
  checkStatus sample_parser
    (always (answer 200 (json_stringify (JObj [("done", JBool false); ("queue_position", JNum "3")]))))
    "abc" [] =
  ([Call (horde_check_url "abc") "GET" None],
   inr (json_response_default (JObj [
     ("status", JStr "processing"); ("queuePosition", JNum "3"); ("waitTime", JNum "0");
     ("done", JBool false)]))).
Proof.
  apply (proj2 (checkStatus_pending sample_parser
           (always (answer 200 (json_stringify (JObj [("done", JBool false); ("queue_position", JNum "3")]))))
           "abc" (answer 200 (json_stringify (JObj [("done", JBool false); ("queue_position", JNum "3")])))
           (JObj [("done", JBool false); ("queue_position", JNum "3")]) []
           ltac:(vm_compute; reflexivity) ltac:(vm_compute; reflexivity)
           ltac:(vm_compute; reflexivity) ltac:(vm_compute; reflexivity))
           None (Some (JBool false)) (Some (JNum "3")) None);
    vm_compute; reflexivity.
Defined.

Lemma checkStatus_result_failed_witness :
  checkStatus sample_parser (horde_net done_answer (answer 404 "gone") (answer 200 "x")) "abc" [] =
  ([Call (horde_check_url "abc") "GET" None; Call (horde_status_url "abc") "GET" None],
   inr (error_status_response "Failed to get generation result" "Status: 404")).
Proof.
  apply (checkStatus_result_failed sample_parser (horde_net done_answer (answer 404 "gone") (answer 200 "x"))
           "abc" done_answer (answer 404 "gone") (JObj [("done", JBool true)])
           None (Some (JBool true)) []);
    vm_compute; reflexivity.
Defined.

Lemma checkStatus_no_image_witness :
  checkStatus sample_parser
    (horde_net done_answer (answer 200 (json_stringify (JObj [("generations", JArr [])]))) (answer 200 "x"))
    "abc" [] =
  ([Call (horde_check_url "abc") "GET" None; Call (horde_status_url "abc") "GET" None],
   inr (error_status_response "No image in generation result"
          (json_stringify (JObj [("generations", JArr [])])))).
Proof.
  apply (checkStatus_no_image sample_parser
           (horde_net done_answer (answer 200 (json_stringify (JObj [("generations", JArr [])]))) (answer 200 "x"))
           "abc" done_answer (answer 200 (json_stringify (JObj [("generations", JArr [])])))
           (JObj [("done", JBool true)]) (JObj [("generations", JArr [])])
           None (Some (JBool true)) (Some (JArr [])) []);
    first [vm_compute; reflexivity | right; left; reflexivity].
Defined.

Lemma checkStatus_completed_witness :
  checkStatus sample_parser
    (horde_net done_answer
       (answer 200 (json_stringify (JObj [("generations", JArr [JObj [("img", JStr "aGk=")]])])))
       (answer 200 "x"))
    "abc" [] =
  ([Call (horde_check_url "abc") "GET" None; Call (horde_status_url "abc") "GET" None],
   inr (json_response_default (JObj [("imageUrl", JStr "data:image/png;base64,aGk=");
                                     ("provider", JStr "aihorde"); ("status", JStr "completed")]))).
Proof.
  apply (proj1 (checkStatus_completed sample_parser
           (horde_net done_answer
              (answer 200 (json_stringify (JObj [("generations", JArr [JObj [("img", JStr "aGk=")]])])))
              (answer 200 "x"))
           "abc" done_answer
           (answer 200 (json_stringify (JObj [("generations", JArr [JObj [("img", JStr "aGk=")]])])))
           (JObj [("done", JBool true)])
           (JObj [("generations", JArr [JObj [("img", JStr "aGk=")]])])
           (JObj [("img", JStr "aGk=")]) [] None (Some (JBool true)) "aGk=" []
           ltac:(vm_compute; reflexivity) ltac:(vm_compute; reflexivity)
           ltac:(vm_compute; reflexivity) ltac:(vm_compute; reflexivity)
           ltac:(vm_compute; reflexivity) ltac:(vm_compute; reflexivity)
           ltac:(vm_compute; reflexivity) ltac:(vm_compute; reflexivity)
           ltac:(vm_compute; reflexivity) ltac:(vm_compute; reflexivity)
           ltac:(vm_compute; reflexivity) ltac:(vm_compute; reflexivity)
           ltac:(vm_compute; reflexivity) ltac:(vm_compute; reflexivity)
           ltac:(vm_compute; reflexivity)));
    vm_compute; reflexivity.
Defined.

Lemma generateImage_both_404_witness :
  generateImage sample_parser (two_endpoints 404 404) (post_request "cat") [] =
  ([subnp_call endpoint_A "cat" (JStr "turbo"); subnp_call endpoint_B "cat" (JStr "turbo")],
   inr (json_response 200 (JObj [
     ("error", JStr "SubNP API error: 404");
     ("details", JStr (concat_text (body_chunks (stream_reply 404))));
     ("debug", JObj [("status", JNum "404");
                     ("errorText", JStr (concat_text (body_chunks (stream_reply 404))));
                     ("triedEndpoints", JArr (map JStr apiUrls));
                     ("suggestion", JStr "SubNP may require an API key. Visit https://www.subnp.com/free-api to get one.")])]))).
Proof.
  apply (generateImage_both_404 sample_parser (two_endpoints 404 404) (post_request "cat")
           (JObj [("prompt", JStr "cat")]) "cat" None (stream_reply 404) (stream_reply 404) []);
    vm_compute; reflexivity.
Defined.

Lemma proxy_backend_error_witness :
  handleRequest_proxy sample_parser (always (answer 503 "busy")) (post_request "cat") [] =
  ([Call "https://t2i.mcpcore.xyz/api/free/generate" "POST"
         (Some (JObj [("prompt", JStr "cat"); ("model", JStr "turbo")]))],
   inr (proxy_json 503 (JObj [("error", JStr "API error: 503"); ("details", JStr "busy")]))) /\
  handleRequest_proxy sample_parser (always (answer 304 EmptyString)) (post_request "cat") [] =
  ([Call "https://t2i.mcpcore.xyz/api/free/generate" "POST"
         (Some (JObj [("prompt", JStr "cat"); ("model", JStr "turbo")]))],
   inr (proxy_json 500 (JObj [("error", JStr "Response with null body status (101, 204, 205, or 304) cannot have a body.")]))).
Proof.
  split.
  - refine (proj1 (proxy_backend_error sample_parser (always (answer 503 "busy")) (post_request "cat")
             (JObj [("prompt", JStr "cat")]) (JStr "cat") None (answer 503 "busy") []
             _ _ _ _ _ _ _ _) _ _);
      first [vm_compute; reflexivity | simpl; lia].
  - refine (proj2 (proj2 (proxy_backend_error sample_parser (always (answer 304 EmptyString))
             (post_request "cat") (JObj [("prompt", JStr "cat")]) (JStr "cat") None
             (answer 304 EmptyString) [] _ _ _ _ _ _ _ _)) _);
      vm_compute; reflexivity.
Defined.
